(** * QMapControl: the tile cache and the download coordinator

    A shallow embedding of [ImageManager.cpp] and of the part of
    [NetworkManager.h] it drives, with the properties of the tile
    acquisition path proved over it.

    Conventions.  A C++ method [T C::f(args)] that reads and writes the
    members of [C] becomes a computation [M T]: a function from the state of
    the object to the returned value, the new state and the list of events
    the call produced (signals emitted, calls on the external tile provider,
    reads from the persistent cache).  A pointer member that may be
    [nullptr] becomes an [option]. *)

From Stdlib Require Import ZArith Lia.
From stdpp Require Import gmap strings list fin_maps pretty.

Local Open Scope Z_scope.

(** ** Qt value types *)

(** [QUrl] and [QByteArray] are kept as strings: a URL is only compared,
    printed and hashed; a byte array is only measured, hashed and decoded. *)
Abbreviation QUrl := string (only parsing).
Abbreviation QByteArray := string (only parsing).

(** [QByteArray::size]. *)
Definition size_bytes (b : QByteArray) : Z := Z.of_nat (String.length b).

(** What a pixmap shows.  Only the pictures [setupPlaceholderPixmaps] draws
    are told apart from decoded image data. *)
Inductive Picture :=
  | Transparent
  | LoadingPattern
  | Pixels (raw : QByteArray).

Record QPixmap := mkPixmap {
  width : Z;
  height : Z;
  depth : Z;
  picture : Picture
}.

Global Instance Picture_eq_dec : EqDecision Picture.
Proof. solve_decision. Defined.

Global Instance QPixmap_eq_dec : EqDecision QPixmap.
Proof. solve_decision. Defined.

(** [QPixmap()], the null pixmap. *)
Definition null_pixmap : QPixmap := mkPixmap 0 0 0 (Pixels "").

(** [QPixmap::isNull]: a pixmap without extent. *)
Definition isNull (p : QPixmap) : bool :=
  (width p <=? 0) || (height p <=? 0).

(** [QPixmap(w, h)] followed by a fill or a painting [pic]; a pixmap without
    extent stays the null pixmap whatever is painted on it. *)
Definition new_pixmap (w h : Z) (pic : Picture) : QPixmap :=
  if (w <=? 0) || (h <=? 0) then null_pixmap else mkPixmap w h 32 pic.

(** C++ [int]: 32 bits, two's complement wrap-around. *)
Definition int32 (z : Z) : Z := (z + 2 ^ 31) mod 2 ^ 32 - 2 ^ 31.

(** ** The cost-bounded memory cache ([QCache<QByteArray, QPixmap>]) *)

Module QCache.

Record Node := mkNode {
  node_key : QByteArray;
  node_obj : QPixmap;
  node_cost : Z
}.

(** Modelled from the spec: [QCache] is Qt's container and is not part of
    the sources.  Section 4.1 gives its contract: a cost-bounded
    associative cache, [get(key) -> image or absent], [put(key, image)]
    that evicts least-recently-used entries until the new entry fits and
    drops the new entry if it alone exceeds the capacity.  [chain] lists
    the entries from the most recently used to the least recently used. *)
Record t := mk {
  mx : Z;
  chain : list Node
}.

Definition empty (m : Z) : t := mk m [].

Definition sum_cost (l : list Node) : Z :=
  foldr (fun n acc => node_cost n + acc) 0 l.

Definition totalCost (c : t) : Z := sum_cost (chain c).

Definition key_is (k : QByteArray) (n : Node) : bool :=
  bool_decide (node_key n = k).

Definition find_node (k : QByteArray) (l : list Node) : option Node :=
  List.find (key_is k) l.

Definition without (k : QByteArray) (l : list Node) : list Node :=
  List.filter (fun n => negb (key_is k n)) l.

(** Unlinks the first entry of key [k]. *)
Fixpoint unlink (k : QByteArray) (l : list Node) : list Node :=
  match l with
  | [] => []
  | n :: rest => if key_is k n then rest else n :: unlink k rest
  end.

(** A lookup that leaves the recency order alone (used in statements). *)
Definition peek (k : QByteArray) (c : t) : option QPixmap :=
  node_obj <$> find_node k (chain c).

Definition contains (k : QByteArray) (c : t) : bool :=
  bool_decide (is_Some (peek k c)).

(** [QCache::object]: the entry found becomes the most recently used. *)
Definition object (k : QByteArray) (c : t) : option QPixmap * t :=
  match find_node k (chain c) with
  | Some n => (Some (node_obj n), mk (mx c) (n :: unlink k (chain c)))
  | None => (None, c)
  end.

Definition remove (k : QByteArray) (c : t) : t :=
  mk (mx c) (without k (chain c)).

(** Eviction walks from the least recently used end while the total cost
    exceeds [m]; [lru] lists the entries least recently used first. *)
Fixpoint trim_lru (m tot : Z) (lru : list Node) : list Node :=
  match lru with
  | [] => []
  | n :: rest =>
      if m <? tot then trim_lru m (tot - node_cost n) rest else lru
  end.

Definition trim_chain (m : Z) (l : list Node) : list Node :=
  rev (trim_lru m (sum_cost l) (rev l)).

Definition trim (m : Z) (c : t) : t := mk (mx c) (trim_chain m (chain c)).

(** [QCache::insert]: the previous entry of the key goes first; an object
    that alone costs more than the capacity is dropped; otherwise room is
    made and the object becomes the most recently used entry. *)
Definition insert (k : QByteArray) (v : QPixmap) (cost : Z) (c : t) : t :=
  let c1 := remove k c in
  if mx c <? cost then c1
  else mk (mx c) (mkNode k v cost :: trim_chain (mx c - cost) (chain c1)).

(** [QCache::setMaxCost]. *)
Definition setMaxCost (m : Z) (c : t) : t := trim m (mk m (chain c)).

(** The entries are all non-null pixmaps. *)
Definition sound (c : t) : Prop :=
  Forall (fun n => isNull (node_obj n) = false) (chain c).

(** The cache is within its capacity: the entries together cost no more
    than [mx], unless nothing is left to evict. *)
Definition within_capacity (c : t) : Prop :=
  chain c = [] \/ totalCost c <= mx c.

(** No entry has a negative cost. *)
Definition costs_nonneg (c : t) : Prop :=
  Forall (fun n => 0 <= node_cost n) (chain c).

End QCache.

(** ** The download coordinator ([NetworkManager]) *)

Module NetworkManager.

(** The persistent cache is one object, shared by address between the
    image manager (which owns it) and the network layer. *)
Inductive QAbstractNetworkCache := TheDiskCache.

(** Modelled from the spec: [NetworkManager.cpp] is not among the sources;
    [NetworkManager.h] declares the members below and section 4.2 of the
    specification describes what the methods do.  [m_downloadRequests] is
    the header's [QMap<QNetworkReply*, QUrl>], a reply being named by its
    address.  [m_accessManager_cache] and [m_accessManager_issued] stand
    for [m_accessManager]: the cache it was given and the transport
    operations it was asked to start, latest first. *)
Record t := mk {
  m_accessManager_cache : option QAbstractNetworkCache;
  m_accessManager_issued : list (QUrl * bool);
  m_downloadRequests : gmap nat QUrl
}.

Definition init : t := mk None [] ∅.

(** The URLs with an outstanding request. *)
Definition outstanding (nm : t) : list QUrl :=
  (map_to_list (m_downloadRequests nm)).*2.

(** Modelled from the spec: [isDownloading], "checks if the given url
    resource is currently being downloaded". *)
Definition isDownloading (url : QUrl) (nm : t) : bool :=
  bool_decide (url ∈ outstanding nm).

(** Modelled from the spec: [downloadQueueSize], "the number of current
    downloads". *)
Definition downloadQueueSize (nm : t) : Z :=
  Z.of_nat (size (m_downloadRequests nm)).

(** Modelled from the spec: [requestDownload] starts the transport
    operation and records its reply against the URL. *)
Definition requestDownload (url : QUrl) (cacheOnly : bool) (nm : t) : t :=
  let reply := fresh (dom (m_downloadRequests nm)) in
  mk (m_accessManager_cache nm)
     ((url, cacheOnly) :: m_accessManager_issued nm)
     (<[reply := url]> (m_downloadRequests nm)).

(** Modelled from the spec: [downloadImage], "for a given URL, if a
    request is already outstanding, a new request for the same URL does
    not start a second transport call". *)
Definition downloadImage (url : QUrl) (cacheOnly : bool) (nm : t) : t :=
  if isDownloading url nm then nm else requestDownload url cacheOnly nm.

(** Modelled from the spec: [abortDownloads] "cancels every outstanding
    transport operation immediately and clears internal bookkeeping". *)
Definition abortDownloads (nm : t) : t :=
  mk (m_accessManager_cache nm) (m_accessManager_issued nm) ∅.

(** Modelled from the spec: [downloadFinished], a request is "destroyed on
    completion, failure, timeout, or global abort"; success and failure
    differ in the signal sent, not in the bookkeeping. *)
Definition downloadFinished (reply : nat) (nm : t) : t :=
  mk (m_accessManager_cache nm) (m_accessManager_issued nm)
     (delete reply (m_downloadRequests nm)).

(** Modelled from the spec: [abortTimeoutedRequests], the sweep that
    "force-cancels any (request) that have exceeded a fixed staleness
    threshold".  [stale] tells which replies the sweep finds too old: the
    clock is outside the model. *)
Definition abortTimeoutedRequests (stale : nat -> bool) (nm : t) : t :=
  mk (m_accessManager_cache nm) (m_accessManager_issued nm)
     (filter (fun kv => stale kv.1 = false) (m_downloadRequests nm)).

(** Modelled from the spec: [setCache], "sets the disk cache for network
    manager". *)
Definition setCache (cache : option QAbstractNetworkCache) (nm : t) : t :=
  mk cache (m_accessManager_issued nm) (m_downloadRequests nm).

(** What can happen to the coordinator, in any order. *)
Inductive Call :=
  | CallDownloadImage (url : QUrl) (cacheOnly : bool)
  | CallDownloadFinished (reply : nat)
  | CallAbortTimeoutedRequests (stale : nat -> bool)
  | CallAbortDownloads
  | CallSetCache (cache : option QAbstractNetworkCache).

Definition call (nm : t) (c : Call) : t :=
  match c with
  | CallDownloadImage url cacheOnly => downloadImage url cacheOnly nm
  | CallDownloadFinished reply => downloadFinished reply nm
  | CallAbortTimeoutedRequests stale => abortTimeoutedRequests stale nm
  | CallAbortDownloads => abortDownloads nm
  | CallSetCache cache => setCache cache nm
  end.

Definition run (calls : list Call) : t := foldl call init calls.

(** The de-duplication invariant: no URL has two live requests. *)
Definition one_request_per_url (nm : t) : Prop :=
  forall (r1 r2 : nat) (url : QUrl),
    m_downloadRequests nm !! r1 = Some url ->
    m_downloadRequests nm !! r2 = Some url -> r1 = r2.

End NetworkManager.

(** ** The tile manager ([ImageManager]) *)

(** [ITileProvider]: the port of the synchronous tile source.
    [getTileData(url, data)] returns whether it has the tile and what it
    left in [data]. *)
Record ITileProvider := mkProvider {
  getTileData : QUrl -> bool * QByteArray
}.

(** [QNetworkDiskCache], as far as the manager uses it: its configuration
    and the bytes it holds by URL. *)
Record QNetworkDiskCache := mkDiskCache {
  cacheDirectory : string;
  maximumCacheSize : Z;
  stored : gmap QUrl QByteArray
}.

(** [QNetworkDiskCache::data]: the device to read the entry from, or
    [nullptr]. *)
Definition data (dc : QNetworkDiskCache) (url : QUrl) : option QByteArray :=
  stored dc !! url.

Inductive CachePolicy := AlwaysCache | PreferCache | AlwaysNetwork.

Global Instance CachePolicy_eq_dec : EqDecision CachePolicy.
Proof. solve_decision. Defined.

(** The signals [ImageManager.cpp] emits itself. *)
Inductive Signal :=
  | downloadImage (url : QUrl) (cacheOnly : bool)
  | imageUpdated (url : QUrl)
  | imageCached.

(** What a call lets the outside see. *)
Inductive Event :=
  | Emit (s : Signal)
  | ProviderGetTileData (url : QUrl)
  | DiskCacheData (url : QUrl).

Global Instance Signal_eq_dec : EqDecision Signal.
Proof. solve_decision. Defined.

Global Instance Event_eq_dec : EqDecision Event.
Proof. solve_decision. Defined.

(** The two library routines the manager relies on: the MD5 digest in
    hexadecimal ([QCryptographicHash::hash(...).toHex()]) and the image
    decoder ([QPixmap::fromImageReader] on a device holding the bytes). *)
Class Platform := {
  md5_hex : string -> QByteArray;
  fromImageReader : QByteArray -> QPixmap
}.

Module ImageManager.

(** The members of [ImageManager], and [projection_epsg] for the
    process-wide [projection::get().epsg()] that [hashTileUrl] reads. *)
Record t := mk {
  m_tile_size_px : Z;
  m_diskCache : option QNetworkDiskCache;
  m_cachePolicy : CachePolicy;
  m_tileProvider : option ITileProvider;
  m_networkManager : NetworkManager.t;
  m_prefetchUrls : gset QUrl;
  m_memoryCache : QCache.t;
  m_pixmapLoading : QPixmap;
  m_pixmapEmpty : QPixmap;
  projection_epsg : Z
}.

Definition set_tile_size_px (v : Z) (s : t) : t :=
  mk v (m_diskCache s) (m_cachePolicy s) (m_tileProvider s)
     (m_networkManager s) (m_prefetchUrls s) (m_memoryCache s)
     (m_pixmapLoading s) (m_pixmapEmpty s) (projection_epsg s).

Definition set_diskCache (v : option QNetworkDiskCache) (s : t) : t :=
  mk (m_tile_size_px s) v (m_cachePolicy s) (m_tileProvider s)
     (m_networkManager s) (m_prefetchUrls s) (m_memoryCache s)
     (m_pixmapLoading s) (m_pixmapEmpty s) (projection_epsg s).

Definition set_cachePolicy (v : CachePolicy) (s : t) : t :=
  mk (m_tile_size_px s) (m_diskCache s) v (m_tileProvider s)
     (m_networkManager s) (m_prefetchUrls s) (m_memoryCache s)
     (m_pixmapLoading s) (m_pixmapEmpty s) (projection_epsg s).

Definition set_tileProvider (v : option ITileProvider) (s : t) : t :=
  mk (m_tile_size_px s) (m_diskCache s) (m_cachePolicy s) v
     (m_networkManager s) (m_prefetchUrls s) (m_memoryCache s)
     (m_pixmapLoading s) (m_pixmapEmpty s) (projection_epsg s).

Definition set_networkManager (v : NetworkManager.t) (s : t) : t :=
  mk (m_tile_size_px s) (m_diskCache s) (m_cachePolicy s) (m_tileProvider s)
     v (m_prefetchUrls s) (m_memoryCache s)
     (m_pixmapLoading s) (m_pixmapEmpty s) (projection_epsg s).

Definition set_prefetchUrls (v : gset QUrl) (s : t) : t :=
  mk (m_tile_size_px s) (m_diskCache s) (m_cachePolicy s) (m_tileProvider s)
     (m_networkManager s) v (m_memoryCache s)
     (m_pixmapLoading s) (m_pixmapEmpty s) (projection_epsg s).

Definition set_memoryCache (v : QCache.t) (s : t) : t :=
  mk (m_tile_size_px s) (m_diskCache s) (m_cachePolicy s) (m_tileProvider s)
     (m_networkManager s) (m_prefetchUrls s) v
     (m_pixmapLoading s) (m_pixmapEmpty s) (projection_epsg s).

Definition set_pixmapLoading (v : QPixmap) (s : t) : t :=
  mk (m_tile_size_px s) (m_diskCache s) (m_cachePolicy s) (m_tileProvider s)
     (m_networkManager s) (m_prefetchUrls s) (m_memoryCache s)
     v (m_pixmapEmpty s) (projection_epsg s).

Definition set_pixmapEmpty (v : QPixmap) (s : t) : t :=
  mk (m_tile_size_px s) (m_diskCache s) (m_cachePolicy s) (m_tileProvider s)
     (m_networkManager s) (m_prefetchUrls s) (m_memoryCache s)
     (m_pixmapLoading s) v (projection_epsg s).

(** *** Computations on the manager *)

Definition M (A : Type) : Type := t -> A * t * list Event.

Definition ret {A} (a : A) : M A := fun s => (a, s, []).

Definition bind {A B} (m : M A) (k : A -> M B) : M B :=
  fun s =>
    let '(a, s1, e1) := m s in
    let '(b, s2, e2) := k a s1 in
    (b, s2, e1 ++ e2).

Definition get : M t := fun s => (s, s, []).

Definition modify (f : t -> t) : M unit := fun s => (tt, f s, []).

Definition note (e : Event) : M unit := fun s => (tt, s, [e]).

Global Instance M_ret : MRet M := @ret.
Global Instance M_bind : MBind M := fun A B k m => bind m k.

(** The value a call returns, the state it leaves and what it shows. *)
Definition result {A} (r : A * t * list Event) : A := r.1.1.
Definition after {A} (r : A * t * list Event) : t := r.1.2.
Definition events {A} (r : A * t * list Event) : list Event := r.2.

(** The slot the constructor connects to a signal runs when the signal is
    emitted: [downloadImage] is wired to [NetworkManager::downloadImage];
    the other two signals leave the manager. *)
Definition deliver (sig : Signal) (s : t) : t :=
  match sig with
  | downloadImage url cacheOnly =>
      set_networkManager
        (NetworkManager.downloadImage url cacheOnly (m_networkManager s)) s
  | imageUpdated _ | imageCached => s
  end.

Definition emit (sig : Signal) : M unit :=
  fun s => (tt, deliver sig s, [Emit sig]).

Section Methods.

Context `{Platform}.

Definition kDefaultTileSizePx : Z := 256.
Definition kDefaultPixmapCacheSizeMiB : Z := 30.

(** [hashTileUrl]: the digest of the URL followed by the EPSG code of
    the projection and by the tile size, both in decimal. *)
Definition hashTileUrl (s : t) (url : QUrl) : QByteArray :=
  md5_hex (url +:+ pretty (projection_epsg s) +:+ pretty (m_tile_size_px s)).

(** [setMemoryCacheCapacity]. *)
Definition setMemoryCacheCapacity (capacityMiB : Z) : M unit :=
  modify (fun s =>
    set_memoryCache
      (QCache.setMaxCost (int32 (int32 (capacityMiB * 1024) * 1024))
         (m_memoryCache s)) s).

(** [setupPlaceholderPixmaps]. *)
Definition setupPlaceholderPixmaps : M unit :=
  modify (fun s =>
    set_pixmapEmpty
      (new_pixmap (m_tile_size_px s) (m_tile_size_px s) Transparent)
      (set_pixmapLoading
         (new_pixmap (m_tile_size_px s) (m_tile_size_px s) LoadingPattern)
         s)).

(** The constructor [ImageManager(tile_size_px)]; a [QCache] starts with
    a capacity of 100. *)
Definition construct (tile_size_px epsg : Z) : t :=
  let s0 := mk tile_size_px None AlwaysCache None NetworkManager.init ∅
               (QCache.empty 100) null_pixmap null_pixmap epsg in
  after ((setMemoryCacheCapacity kDefaultPixmapCacheSizeMiB ;;
          setupPlaceholderPixmaps) s0).

(** [tileSizePx]. *)
Definition tileSizePx : M Z := s ← get; ret (m_tile_size_px s).

(** [setTileSizePx]. *)
Definition setTileSizePx (tile_size_px : Z) : M unit :=
  modify (set_tile_size_px tile_size_px) ;;
  setupPlaceholderPixmaps.

(** [configureDiskCache]; [mkpath_ok] is whether the directory could be
    made and [held] what the directory holds. *)
Definition configureDiskCache (dir : string) (capacityMiB : Z)
    (mkpath_ok : bool) (held : gmap QUrl QByteArray) : M bool :=
  (if mkpath_ok then
     modify (set_diskCache
               (Some (mkDiskCache dir (capacityMiB * 1024 * 1024) held)))
   else ret tt) ;;
  ret mkpath_ok.

(** [clearDiskCache]. *)
Definition clearDiskCache : M unit :=
  modify (fun s =>
    match m_diskCache s with
    | Some dc =>
        set_diskCache
          (Some (mkDiskCache (cacheDirectory dc) (maximumCacheSize dc) ∅)) s
    | None => s
    end).

(** [abortLoading]. *)
Definition abortLoading : M unit :=
  modify (fun s =>
    set_networkManager
      (NetworkManager.abortDownloads (m_networkManager s)) s) ;;
  modify (set_prefetchUrls ∅).

(** [downloadQueueSize]. *)
Definition downloadQueueSize : M Z :=
  s ← get; ret (NetworkManager.downloadQueueSize (m_networkManager s)).

(** The cost of a tile, [width() * height() * depth() / 8] on [int]. *)
Definition pixmap_cost (pixmap : QPixmap) : Z :=
  int32 (Z.quot
           (int32 (int32 (width pixmap * height pixmap) * depth pixmap))
           8).

(** [insertTileToMemoryCache]. *)
Definition insertTileToMemoryCache (url : QUrl) (pixmap : QPixmap) : M unit :=
  if negb (isNull pixmap) then
    let cost := pixmap_cost pixmap in
    modify (fun s =>
      set_memoryCache
        (QCache.insert (hashTileUrl s url) pixmap cost (m_memoryCache s)) s)
  else ret tt.

(** [findTileInMemoryCache]: [Some pixmap] for [true] with the pixmap
    copied out, [None] for [false].  The method is [const], but the
    lookup in the cache marks the entry found as the most recently used. *)
Definition findTileInMemoryCache (url : QUrl) : M (option QPixmap) :=
  fun s =>
    let '(entry, cache) :=
      QCache.object (hashTileUrl s url) (m_memoryCache s) in
    (entry, set_memoryCache cache s, []).

(** [getImageFromDevice]; [device] holds the bytes to decode. *)
Definition getImageFromDevice (url : QUrl) (device : QByteArray) : M QPixmap :=
  let pixmap := fromImageReader device in
  insertTileToMemoryCache url pixmap ;;
  modify (fun s => set_prefetchUrls (m_prefetchUrls s ∖ {[url]}) s) ;;
  ret pixmap.

(** The manager once [pixmap] was decoded for [url]: handed to the
    memory cache and no longer awaited as a prefetch (used in
    statements). *)
Definition served (url : QUrl) (pixmap : QPixmap) (s : t) : t :=
  set_prefetchUrls
    (m_prefetchUrls (after (insertTileToMemoryCache url pixmap s)) ∖ {[url]})
    (after (insertTileToMemoryCache url pixmap s)).

(** [getImageInternal]. *)
Definition getImageInternal (url : QUrl) : M QPixmap :=
  s ← get;
  match m_tileProvider s with
  | Some provider =>
      note (ProviderGetTileData url) ;;
      let '(found, bytes) := getTileData provider url in
      if found then getImageFromDevice url bytes
      else ret (m_pixmapEmpty s)
  | None =>
      let download :=
        emit (downloadImage url false) ;;
        s' ← get; ret (m_pixmapLoading s') in
      if bool_decide (m_cachePolicy s = AlwaysCache)
         || bool_decide (m_cachePolicy s = PreferCache)
      then
        device ← match m_diskCache s with
                  | Some dc => note (DiskCacheData url) ;; ret (data dc url)
                  | None => ret None
                  end;
        match device with
        | Some bytes => getImageFromDevice url bytes
        | None =>
            if bool_decide (m_cachePolicy s = AlwaysCache)
            then ret (m_pixmapEmpty s)
            else download
        end
      else download
  end.

(** [getImage]. *)
Definition getImage (url : QUrl) : M QPixmap :=
  found ← findTileInMemoryCache url;
  match found with
  | Some pixmap => ret pixmap
  | None => getImageInternal url
  end.

(** [rawImageFromDiskCache]. *)
Definition rawImageFromDiskCache (url : QUrl) : M QByteArray :=
  s ← get;
  match m_tileProvider s with
  | Some provider =>
      note (ProviderGetTileData url) ;;
      ret (getTileData provider url).2
  | None =>
      match m_diskCache s with
      | Some dc =>
          note (DiskCacheData url) ;;
          match data dc url with
          | Some bytes => ret bytes
          | None => ret ""
          end
      | None => ret ""
      end
  end.

(** [prefetchImage]. *)
Definition prefetchImage (url : QUrl) : M unit :=
  found ← findTileInMemoryCache url;
  match found with
  | Some _ => ret tt
  | None =>
      modify (fun s => set_prefetchUrls ({[url]} ∪ m_prefetchUrls s) s) ;;
      getImageInternal url ;;
      ret tt
  end.

(** [handleImageCached]. *)
Definition handleImageCached (url : QUrl) : M unit := emit imageCached.

(** [cacheImageToDisk]. *)
Definition cacheImageToDisk (url : QUrl) : M bool :=
  s ← get;
  let download := emit (downloadImage url true) ;; ret false in
  if bool_decide (m_cachePolicy s = AlwaysCache)
     || bool_decide (m_cachePolicy s = PreferCache)
  then
    raw ← rawImageFromDiskCache url;
    if 0 <? size_bytes raw then handleImageCached url ;; ret true
    else if bool_decide (m_cachePolicy s = AlwaysCache) then ret true
    else download
  else download.

(** The address [m_diskCache] holds, as the network layer receives it. *)
Definition diskCachePtr (s : t) : option NetworkManager.QAbstractNetworkCache :=
  match m_diskCache s with
  | Some _ => Some NetworkManager.TheDiskCache
  | None => None
  end.

(** [setCachePolicy]. *)
Definition setCachePolicy (policy : CachePolicy) : M unit :=
  modify (set_cachePolicy policy) ;;
  (if bool_decide (policy = AlwaysCache) then abortLoading else ret tt) ;;
  modify (fun s =>
    set_networkManager
      (NetworkManager.setCache
         (if bool_decide (policy = AlwaysNetwork) then None
          else diskCachePtr s)
         (m_networkManager s)) s).

(** [setLoadingPixmap] and [setEmptyPixmap]. *)
Definition setLoadingPixmap (pixmap : QPixmap) : M unit :=
  modify (set_pixmapLoading pixmap).

Definition setEmptyPixmap (pixmap : QPixmap) : M unit :=
  modify (set_pixmapEmpty pixmap).

(** [handleImageDownloaded]. *)
Definition handleImageDownloaded (url : QUrl) (pixmap : QPixmap) : M unit :=
  s ← get;
  (if bool_decide (url ∈ m_prefetchUrls s)
   then modify (fun s => set_prefetchUrls (m_prefetchUrls s ∖ {[url]}) s)
   else emit (imageUpdated url)) ;;
  insertTileToMemoryCache url pixmap.

(** [setCustomTileProvider]. *)
Definition setCustomTileProvider (provider : option ITileProvider) : M unit :=
  abortLoading ;;
  modify (set_tileProvider provider).

(** *** The manager as a machine

    Everything that can be called on the manager, in any order: its
    public methods, its two slots, and what happens to the download
    coordinator it owns. *)
Inductive Call :=
  | CallGetImage (url : QUrl)
  | CallPrefetchImage (url : QUrl)
  | CallCacheImageToDisk (url : QUrl)
  | CallSetCachePolicy (policy : CachePolicy)
  | CallHandleImageDownloaded (url : QUrl) (pixmap : QPixmap)
  | CallHandleImageCached (url : QUrl)
  | CallSetMemoryCacheCapacity (capacityMiB : Z)
  | CallSetTileSizePx (tile_size_px : Z)
  | CallConfigureDiskCache (dir : string) (capacityMiB : Z)
      (mkpath_ok : bool) (held : gmap QUrl QByteArray)
  | CallClearDiskCache
  | CallAbortLoading
  | CallSetLoadingPixmap (pixmap : QPixmap)
  | CallSetEmptyPixmap (pixmap : QPixmap)
  | CallSetCustomTileProvider (provider : option ITileProvider)
  | CallNetwork (c : NetworkManager.Call).

Definition call (s : t) (c : Call) : t :=
  match c with
  | CallGetImage url => after (getImage url s)
  | CallPrefetchImage url => after (prefetchImage url s)
  | CallCacheImageToDisk url => after (cacheImageToDisk url s)
  | CallSetCachePolicy policy => after (setCachePolicy policy s)
  | CallHandleImageDownloaded url pixmap =>
      after (handleImageDownloaded url pixmap s)
  | CallHandleImageCached url => after (handleImageCached url s)
  | CallSetMemoryCacheCapacity n => after (setMemoryCacheCapacity n s)
  | CallSetTileSizePx n => after (setTileSizePx n s)
  | CallConfigureDiskCache dir n ok held =>
      after (configureDiskCache dir n ok held s)
  | CallClearDiskCache => after (clearDiskCache s)
  | CallAbortLoading => after (abortLoading s)
  | CallSetLoadingPixmap pixmap => after (setLoadingPixmap pixmap s)
  | CallSetEmptyPixmap pixmap => after (setEmptyPixmap pixmap s)
  | CallSetCustomTileProvider provider =>
      after (setCustomTileProvider provider s)
  | CallNetwork c =>
      set_networkManager (NetworkManager.call (m_networkManager s) c) s
  end.

(** The state after [calls] on a manager built for [tile_size_px]. *)
Definition run (tile_size_px epsg : Z) (calls : list Call) : t :=
  foldl call (construct tile_size_px epsg) calls.

(** The two invariants of the manager: its memory cache holds usable
    pixmaps only, and its download coordinator has one request per URL;
    [keeps] tells that a computation maintains an invariant. *)
Definition cache_sound (s : t) : Prop := QCache.sound (m_memoryCache s).

Definition deduplicated (s : t) : Prop :=
  NetworkManager.one_request_per_url (m_networkManager s).

Definition keeps {A} (I : t -> Prop) (m : M A) : Prop :=
  forall s, I s -> I (after (m s)).

(** A third invariant: the memory cache is within its capacity and no
    entry has a negative cost. *)
Definition capacity_kept (s : t) : Prop :=
  QCache.within_capacity (m_memoryCache s)
  /\ QCache.costs_nonneg (m_memoryCache s).

(** What the persistent cache holds for [url], if there is one. *)
Definition persistent (s : t) (url : QUrl) : option QByteArray :=
  match m_diskCache s with
  | Some dc => data dc url
  | None => None
  end.

(** The miss of [url] in [s] goes to download: no tile in memory, no
    provider, and a policy that allows the network with nothing on disk to
    use instead. *)
Definition goes_to_download (url : QUrl) (s : t) : Prop :=
  QCache.peek (hashTileUrl s url) (m_memoryCache s) = None
  /\ m_tileProvider s = None
  /\ (m_cachePolicy s = AlwaysNetwork
      \/ (m_cachePolicy s = PreferCache /\ persistent s url = None)).

(** The read of the persistent cache, seen from outside. *)
Definition disk_read (s : t) (url : QUrl) : list Event :=
  match m_diskCache s with
  | Some _ => [DiskCacheData url]
  | None => []
  end.

(** The text [hashTileUrl] digests. *)
Definition tile_key_text (s : t) (url : QUrl) : string :=
  url +:+ pretty (projection_epsg s) +:+ pretty (m_tile_size_px s).

(** The singleton: [m_instance] is [None] for [nullptr].
    [ImageManager::get] builds the default instance when there is none and
    returns the instance; [ImageManager::destroy] resets the pointer.
    [epsg] is the projection in force when the instance is built. *)
Definition instance_get (m_instance : option t) (epsg : Z) : t * option t :=
  match m_instance with
  | Some s => (s, Some s)
  | None =>
      let s := construct kDefaultTileSizePx epsg in (s, Some s)
  end.

Definition instance_destroy (m_instance : option t) : option t := None.

(** The calls that neither insert into the memory cache nor change what a
    tile is keyed by. *)
Definition cache_neutral (c : Call) : bool :=
  match c with
  | CallSetCachePolicy _ | CallSetCustomTileProvider _ | CallClearDiskCache
  | CallConfigureDiskCache _ _ _ _ | CallAbortLoading
  | CallSetLoadingPixmap _ | CallSetEmptyPixmap _ | CallHandleImageCached _
  | CallCacheImageToDisk _ | CallNetwork _ => true
  | CallGetImage _ | CallPrefetchImage _ | CallHandleImageDownloaded _ _
  | CallSetMemoryCacheCapacity _ | CallSetTileSizePx _ => false
  end.

(** The calls that bring no pixmap of negative cost (a cost is negative
    only when [width * height * depth] leaves the range of [int]). *)
Definition tame (c : Call) : Prop :=
  match c with
  | CallHandleImageDownloaded _ pixmap => 0 <= pixmap_cost pixmap
  | _ => True
  end.

End Methods.

End ImageManager.

(** ** The Google tile source ([MapAdapterGoogle]) *)

Module MapAdapterGoogle.

(** The enumerators that [layerTypeToString] switches on. *)
Inductive GoogleLayerType :=
  | MAPS
  | SATELLITE_ONLY
  | TERRAIN_ONLY
  | TERRAIN
  | ROADS_ONLY
  | HYBRID
  | RASTER.

Definition kGoogleMapUrlFormat : string :=
  "http://mt.google.com/vt/hl=en&x=%x&y=%y&z=%zoom&lyrs=".

(** [layerTypeToString]; [MAPS] shares the [default] branch. *)
Definition layerTypeToString (layer_type : GoogleLayerType) : string :=
  match layer_type with
  | SATELLITE_ONLY => "s"
  | TERRAIN_ONLY => "t"
  | TERRAIN => "p"
  | ROADS_ONLY => "h"
  | HYBRID => "y"
  | RASTER => "r"
  | MAPS => "m"
  end.

(** The URL template the constructor hands to [MapAdapterTile]. *)
Definition base_url (layer_type : GoogleLayerType) : QUrl :=
  kGoogleMapUrlFormat +:+ layerTypeToString layer_type.

End MapAdapterGoogle.

(** ** A platform to run the model on

    The identity stands for the digest and a decoder that accepts the data
    starting with [P] as a 256 x 256 tile of depth 32 stands for the image
    reader; everything else decodes to the null pixmap. *)

Definition demo_decode (bytes : QByteArray) : QPixmap :=
  if String.prefix "P" bytes then mkPixmap 256 256 32 (Pixels bytes)
  else null_pixmap.

Definition demo_platform : Platform :=
  {| md5_hex := fun text => text; fromImageReader := demo_decode |}.

Definition demo_provider : ITileProvider :=
  mkProvider (fun url =>
    if String.eqb url "tile/good" then (true, "PNG-good")
    else if String.eqb url "tile/broken" then (true, "garbage")
    else (false, "")).

Definition demo_disk : QNetworkDiskCache :=
  mkDiskCache "/var/cache/tiles" (50 * 1024 * 1024)
    {[ "tile/on-disk" := "PNG-disk" ]}.

(** A manager as constructed: AlwaysCache, no provider, no persistent
    cache. *)
Definition fresh_manager : ImageManager.t := ImageManager.construct 256 3857.

Definition demo_run : list (@ImageManager.Call) -> ImageManager.t :=
  @ImageManager.run demo_platform 256 3857.

(** A manager with the provider bound, before and after it has served
    ["tile/good"]. *)
Definition provider_manager : ImageManager.t :=
  demo_run [ImageManager.CallSetCustomTileProvider (Some demo_provider)].

Definition warm_calls : list (@ImageManager.Call) :=
  [ImageManager.CallSetCustomTileProvider (Some demo_provider);
   ImageManager.CallGetImage "tile/good"].

Definition warm_manager : ImageManager.t := demo_run warm_calls.

(** Managers with the persistent cache configured, under each policy. *)
Definition offline_manager : ImageManager.t :=
  demo_run [ImageManager.CallConfigureDiskCache "/var/cache/tiles" 50 true
              (stored demo_disk)].

Definition online_manager : ImageManager.t :=
  demo_run [ImageManager.CallConfigureDiskCache "/var/cache/tiles" 50 true
              (stored demo_disk);
            ImageManager.CallSetCachePolicy PreferCache].

Definition network_manager : ImageManager.t :=
  demo_run [ImageManager.CallConfigureDiskCache "/var/cache/tiles" 50 true
              (stored demo_disk);
            ImageManager.CallSetCachePolicy AlwaysNetwork].

Definition good_pixmap : QPixmap := mkPixmap 256 256 32 (Pixels "PNG-good").
Definition disk_pixmap : QPixmap := mkPixmap 256 256 32 (Pixels "PNG-disk").
Definition empty_tile : QPixmap := mkPixmap 256 256 32 Transparent.
Definition loading_tile : QPixmap := mkPixmap 256 256 32 LoadingPattern.

(** A manager with the provider bound that may use the network only. *)
Definition provider_network_manager : ImageManager.t :=
  demo_run [ImageManager.CallSetCustomTileProvider (Some demo_provider);
            ImageManager.CallSetCachePolicy AlwaysNetwork].

(** A manager whose memory cache has no room at all. *)
Definition cramped_manager : ImageManager.t :=
  demo_run [ImageManager.CallSetMemoryCacheCapacity 0].

(** Calls that leave the tiles in memory alone, and calls that fill the
    memory cache. *)
Definition quiet_calls : list (@ImageManager.Call) :=
  [ImageManager.CallSetCachePolicy AlwaysCache;
   ImageManager.CallClearDiskCache;
   ImageManager.CallSetCustomTileProvider (Some demo_provider)].

Definition filling_calls : list (@ImageManager.Call) :=
  [ImageManager.CallSetCustomTileProvider (Some demo_provider);
   ImageManager.CallGetImage "tile/good";
   ImageManager.CallHandleImageDownloaded "tile/far"
     (mkPixmap 256 256 32 (Pixels "PNG-far"));
   ImageManager.CallSetMemoryCacheCapacity 0].

(** A manager online with a memory cache of 1 MiB that holds two tiles of
    320 x 320, each of 400 KiB: A, then B. *)
Definition wide_tile (name : string) : QPixmap :=
  mkPixmap 320 320 32 (Pixels name).

Definition two_tile_manager : ImageManager.t :=
  demo_run [ImageManager.CallSetMemoryCacheCapacity 1;
            ImageManager.CallSetCachePolicy PreferCache;
            ImageManager.CallHandleImageDownloaded "tile/A" (wide_tile "A");
            ImageManager.CallHandleImageDownloaded "tile/B" (wide_tile "B")].

(** A coordinator with two downloads under way. *)
Definition busy_coordinator : list NetworkManager.Call :=
  [NetworkManager.CallDownloadImage "tile/a" false;
   NetworkManager.CallDownloadImage "tile/b" false].

(** ** Facts about the memory cache *)

Section QCacheFacts.

Import QCache.

Implicit Types (k : QByteArray) (l : list Node) (c : t).

Lemma find_node_cons k n l :
  find_node k (n :: l) = if key_is k n then Some n else find_node k l.
Proof. done. Qed.

Lemma find_node_unlink_ne k k' l :
  k <> k' -> find_node k' (unlink k l) = find_node k' l.
Proof.
  intros Hne. unfold find_node. induction l as [|n l IH]; [done|].
  cbn. destruct (key_is k n) eqn:Hk; cbn.
  - unfold key_is in *. apply bool_decide_eq_true in Hk.
    rewrite bool_decide_eq_false_2; [done | congruence].
  - by rewrite IH.
Qed.

Lemma find_node_Some k l n :
  find_node k l = Some n -> node_key n = k /\ n ∈ l.
Proof.
  unfold find_node. induction l as [|a l IH]; [done|].
  cbn. destruct (key_is k a) eqn:Hk.
  - intros [= ->]. split; [|by left].
    unfold key_is in Hk. by apply bool_decide_eq_true in Hk.
  - intros Hf. destruct (IH Hf) as [? ?]. split; [done | by right].
Qed.

Lemma find_node_key k l n : find_node k l = Some n -> node_key n = k.
Proof. intros Hf. by destruct (find_node_Some _ _ _ Hf). Qed.

Lemma find_node_elem k l n : find_node k l = Some n -> n ∈ l.
Proof. intros Hf. by destruct (find_node_Some _ _ _ Hf). Qed.

(** Moving the entry found to the front only permutes the chain. *)
Lemma unlink_perm k l n : find_node k l = Some n -> n :: unlink k l ≡ₚ l.
Proof.
  unfold find_node. induction l as [|a l IH]; [done|].
  cbn. destruct (key_is k a) eqn:Hk.
  - by intros [= ->].
  - intros Hf. rewrite Permutation_swap. by rewrite (IH Hf).
Qed.

Lemma QCache_object_result k c : (object k c).1 = peek k c.
Proof. unfold object, peek. by destruct (find_node k (chain c)). Qed.

Lemma QCache_object_mx k c : mx (object k c).2 = mx c.
Proof. unfold object. by destruct (find_node k (chain c)). Qed.

Lemma QCache_object_perm k c : chain (object k c).2 ≡ₚ chain c.
Proof.
  unfold object. destruct (find_node k (chain c)) as [n|] eqn:Hf; [|done].
  by apply unlink_perm.
Qed.

Lemma QCache_object_miss k c : peek k c = None -> object k c = (None, c).
Proof.
  unfold peek, object. by destruct (find_node k (chain c)).
Qed.

(** A lookup changes the answer of no later lookup. *)
Lemma QCache_object_peek k k' c : peek k' (object k c).2 = peek k' c.
Proof.
  unfold object, peek.
  destruct (find_node k (chain c)) as [n|] eqn:Hf; [|done].
  pose proof (find_node_key _ _ _ Hf) as Hkey.
  cbn [chain snd]. rewrite find_node_cons. destruct (key_is k' n) eqn:Hk.
  - unfold key_is in Hk. apply bool_decide_eq_true in Hk.
    subst k. rewrite Hk in Hf. by rewrite Hf.
  - rewrite find_node_unlink_ne; [done|].
    unfold key_is in Hk. apply bool_decide_eq_false in Hk. congruence.
Qed.

Lemma sum_cost_perm l1 l2 : l1 ≡ₚ l2 -> sum_cost l1 = sum_cost l2.
Proof. unfold sum_cost. induction 1; cbn in *; lia. Qed.

Lemma QCache_object_totalCost k c : totalCost (object k c).2 = totalCost c.
Proof. apply sum_cost_perm, QCache_object_perm. Qed.

(** Within the capacity, what was inserted is what a lookup finds. *)
Lemma QCache_insert_peek k v cost c :
  cost <= mx c -> peek k (insert k v cost c) = Some v.
Proof.
  intros Hfit. unfold insert.
  destruct (mx c <? cost) eqn:Hlt; [lia|].
  unfold peek. cbn. unfold key_is. by rewrite bool_decide_eq_true_2.
Qed.

(** The scenario of section 8: with a capacity of 1 MiB, three entries of
    400 KiB inserted in the order A, B, C and never looked up leave B and C
    in the cache; a lookup of A before C is inserted saves A and costs B. *)
Example lru_scenario :
  let tile := mkPixmap 320 320 32 Transparent in
  let ab := insert "B" tile 409600 (insert "A" tile 409600 (empty 1048576)) in
  map node_key (chain (insert "C" tile 409600 ab)) = ["C"; "B"]
  /\ map node_key (chain (insert "C" tile 409600 (object "A" ab).2))
     = ["C"; "A"].
Proof. split; vm_compute; reflexivity. Qed.

(** Entries only enter the chain through [insert]. *)
Lemma trim_lru_sub (P : Node -> Prop) m tot l :
  Forall P l -> Forall P (trim_lru m tot l).
Proof.
  intros Hl. revert tot.
  induction Hl as [|n l Hn Hl IH]; intros tot; cbn; [done|].
  destruct (m <? tot); [apply IH | by constructor].
Qed.

Lemma trim_chain_sub (P : Node -> Prop) m l :
  Forall P l -> Forall P (trim_chain m l).
Proof.
  intros Hl. unfold trim_chain.
  apply Forall_rev, trim_lru_sub, Forall_rev, Hl.
Qed.

Lemma without_sub (P : Node -> Prop) k l :
  Forall P l -> Forall P (without k l).
Proof.
  intros Hl. unfold without. apply List.Forall_forall.
  intros n Hn. apply filter_In in Hn as [Hn _].
  rewrite List.Forall_forall in Hl. by apply Hl.
Qed.

Lemma QCache_sound_insert k v cost c :
  isNull v = false -> sound c -> sound (insert k v cost c).
Proof.
  intros Hv Hc. unfold sound, insert.
  destruct (mx c <? cost); cbn.
  - by apply without_sub.
  - constructor; [done|]. by apply trim_chain_sub, without_sub.
Qed.

Lemma QCache_sound_setMaxCost m c : sound c -> sound (setMaxCost m c).
Proof. intros Hc. unfold sound, setMaxCost. cbn. by apply trim_chain_sub. Qed.

Lemma QCache_sound_object k c : sound c -> sound (object k c).2.
Proof.
  unfold sound. intros Hc. by rewrite QCache_object_perm.
Qed.

Lemma QCache_sound_peek k c v : sound c -> peek k c = Some v -> isNull v = false.
Proof.
  unfold sound, peek. intros Hc Hp.
  destruct (find_node k (chain c)) as [n|] eqn:Hf; [|done].
  injection Hp as <-. apply find_node_elem in Hf.
  rewrite Forall_forall in Hc. by apply Hc.
Qed.

(** *** Capacity *)

Lemma find_node_without k l : find_node k (without k l) = None.
Proof.
  unfold find_node, without. induction l as [|n l IH]; [done|].
  cbn. destruct (key_is k n) eqn:Hk; cbn; [done|]. by rewrite Hk.
Qed.

(** An object that alone costs more than the capacity is not kept, and the
    entry its key had is gone. *)
Lemma QCache_insert_oversize k v cost c :
  mx c < cost -> peek k (insert k v cost c) = None.
Proof.
  intros Hbig. unfold insert, peek, remove.
  destruct (mx c <? cost) eqn:Hlt; [|lia].
  cbn [chain]. by rewrite find_node_without.
Qed.

Lemma sum_cost_rev l : sum_cost (rev l) = sum_cost l.
Proof. apply sum_cost_perm. symmetry. apply Permutation_rev. Qed.

Lemma trim_lru_bound m tot l :
  tot = sum_cost l ->
  trim_lru m tot l = [] \/ sum_cost (trim_lru m tot l) <= m.
Proof.
  revert tot. induction l as [|n l IH]; intros tot Htot; cbn; [by left|].
  destruct (m <? tot) eqn:Hlt.
  - apply IH. subst tot. unfold sum_cost. cbn. lia.
  - right. subst tot. change (sum_cost (n :: l) <= m). lia.
Qed.

Lemma trim_chain_bound m l :
  trim_chain m l = [] \/ sum_cost (trim_chain m l) <= m.
Proof.
  unfold trim_chain.
  destruct (trim_lru_bound m (sum_cost l) (rev l)) as [Hnil | Hle].
  - by rewrite sum_cost_rev.
  - left. by rewrite Hnil.
  - right. by rewrite sum_cost_rev.
Qed.

Lemma sum_cost_without k l :
  Forall (fun n => 0 <= node_cost n) l -> sum_cost (without k l) <= sum_cost l.
Proof.
  unfold sum_cost, without. induction 1 as [|n l Hn Hl IH]; cbn; [done|].
  destruct (key_is k n); cbn; lia.
Qed.

Lemma trim_lru_fits m tot l : tot <= m -> trim_lru m tot l = l.
Proof.
  intros Hfit. destruct l as [|n l]; [done|]. cbn.
  by assert ((m <? tot) = false) as -> by lia.
Qed.

(** Nothing is evicted from a chain that fits. *)
Lemma trim_chain_fits m l : sum_cost l <= m -> trim_chain m l = l.
Proof.
  intros Hfit. unfold trim_chain.
  rewrite trim_lru_fits by exact Hfit. apply rev_involutive.
Qed.

Lemma QCache_within_setMaxCost m c : within_capacity (setMaxCost m c).
Proof. unfold within_capacity, setMaxCost, totalCost. cbn. apply trim_chain_bound. Qed.

Lemma QCache_within_object k c :
  within_capacity c -> within_capacity (object k c).2.
Proof.
  unfold within_capacity. intros [Hnil | Hle].
  - left. unfold object. by rewrite Hnil.
  - right. by rewrite QCache_object_totalCost, QCache_object_mx.
Qed.

Lemma QCache_within_insert k v cost c :
  costs_nonneg c -> within_capacity c -> within_capacity (insert k v cost c).
Proof.
  unfold costs_nonneg, within_capacity, insert, totalCost.
  intros Hpos Hin. unfold remove.
  destruct (mx c <? cost) eqn:Hlt; cbn [chain mx].
  - destruct Hin as [Hnil | Hle]; [left; by rewrite Hnil|].
    right. pose proof (sum_cost_without k _ Hpos). lia.
  - right. apply Z.ltb_ge in Hlt.
    change (cost + sum_cost (trim_chain (mx c - cost) (without k (chain c)))
            <= mx c).
    destruct (trim_chain_bound (mx c - cost) (without k (chain c)))
      as [-> | Hle]; [cbn; lia | lia].
Qed.

Lemma QCache_nonneg_insert k v cost c :
  0 <= cost -> costs_nonneg c -> costs_nonneg (insert k v cost c).
Proof.
  unfold costs_nonneg, insert. intros Hcost Hc.
  destruct (mx c <? cost); cbn.
  - by apply without_sub.
  - constructor; [done|]. by apply trim_chain_sub, without_sub.
Qed.

Lemma QCache_nonneg_setMaxCost m c : costs_nonneg c -> costs_nonneg (setMaxCost m c).
Proof. unfold costs_nonneg, setMaxCost. cbn. apply trim_chain_sub. Qed.

Lemma QCache_nonneg_object k c : costs_nonneg c -> costs_nonneg (object k c).2.
Proof. unfold costs_nonneg. intros Hc. by rewrite QCache_object_perm. Qed.

End QCacheFacts.

(** ** The download coordinator: one request per URL *)

Section DownloadCoordinator.

Import NetworkManager.

Implicit Types (nm : t) (url : QUrl) (reply : nat).

Lemma outstanding_lookup url nm :
  url ∈ outstanding nm <-> exists reply, m_downloadRequests nm !! reply = Some url.
Proof.
  unfold outstanding. rewrite list_elem_of_fmap. split.
  - intros ([reply u] & -> & Hin). exists reply.
    by apply elem_of_map_to_list.
  - intros (reply & Hin). exists (reply, url). split; [done|].
    by apply elem_of_map_to_list.
Qed.

Lemma isDownloading_lookup url nm :
  isDownloading url nm = true
  <-> exists reply, m_downloadRequests nm !! reply = Some url.
Proof.
  unfold isDownloading. rewrite bool_decide_eq_true.
  apply outstanding_lookup.
Qed.

Lemma one_request_init : one_request_per_url init.
Proof.
  unfold one_request_per_url, init. cbn. intros r1 r2 url Hr1.
  by rewrite lookup_empty in Hr1.
Qed.

Lemma one_request_downloadImage url cacheOnly nm :
  one_request_per_url nm -> one_request_per_url (downloadImage url cacheOnly nm).
Proof.
  intros Hnm. unfold downloadImage.
  destruct (isDownloading url nm) eqn:Hbusy; [done|].
  assert (forall reply, m_downloadRequests nm !! reply <> Some url) as Hfree.
  { intros reply Hr. apply not_true_iff_false in Hbusy. apply Hbusy.
    apply isDownloading_lookup. by exists reply. }
  intros r1 r2 u. unfold requestDownload. cbn.
  rewrite !lookup_insert.
  repeat case_decide; intros H1 H2; simplify_eq; try done.
  - by destruct (Hfree r2).
  - by destruct (Hfree r1).
  - by apply (Hnm r1 r2 u).
Qed.

Lemma one_request_downloadFinished reply nm :
  one_request_per_url nm -> one_request_per_url (downloadFinished reply nm).
Proof.
  intros Hnm r1 r2 u. unfold downloadFinished. cbn.
  intros [_ H1]%lookup_delete_Some [_ H2]%lookup_delete_Some.
  by apply (Hnm r1 r2 u).
Qed.

Lemma one_request_abortTimeoutedRequests stale nm :
  one_request_per_url nm ->
  one_request_per_url (abortTimeoutedRequests stale nm).
Proof.
  intros Hnm r1 r2 u. unfold abortTimeoutedRequests. cbn.
  intros [H1 _]%map_lookup_filter_Some [H2 _]%map_lookup_filter_Some.
  by apply (Hnm r1 r2 u).
Qed.

Lemma one_request_abortDownloads nm : one_request_per_url (abortDownloads nm).
Proof. intros r1 r2 u Hr1. cbn in Hr1. by rewrite lookup_empty in Hr1. Qed.

Lemma one_request_call nm c :
  one_request_per_url nm -> one_request_per_url (call nm c).
Proof.
  intros Hnm. destruct c; cbn [call].
  - by apply one_request_downloadImage.
  - by apply one_request_downloadFinished.
  - by apply one_request_abortTimeoutedRequests.
  - apply one_request_abortDownloads.
  - exact Hnm.
Qed.

Lemma one_request_foldl nm calls :
  one_request_per_url nm -> one_request_per_url (foldl call nm calls).
Proof.
  revert nm. induction calls as [|c calls IH]; intros nm Hnm; cbn; [done|].
  by apply IH, one_request_call.
Qed.

(** Once its request is finished a URL is no longer being downloaded. *)
Lemma downloadFinished_frees reply url nm :
  one_request_per_url nm ->
  m_downloadRequests nm !! reply = Some url ->
  isDownloading url (downloadFinished reply nm) = false.
Proof.
  intros Hnm Hreply. apply not_true_iff_false.
  intros (r & Hr)%isDownloading_lookup. cbn in Hr.
  apply lookup_delete_Some in Hr as [Hne Hr].
  by destruct (Hne (Hnm reply r url Hreply Hr)).
Qed.

(** A URL that is not being downloaded gets its transport operation. *)
Lemma downloadImage_starts url cacheOnly nm :
  isDownloading url nm = false ->
  m_accessManager_issued (downloadImage url cacheOnly nm)
  = (url, cacheOnly) :: m_accessManager_issued nm
  /\ isDownloading url (downloadImage url cacheOnly nm) = true.
Proof.
  intros Hidle. unfold downloadImage. rewrite Hidle. split; [done|].
  apply isDownloading_lookup.
  exists (fresh (dom (m_downloadRequests nm))). cbn.
  apply lookup_insert_eq.
Qed.

(** With one request per URL the outstanding URLs are all different. *)
Lemma one_request_NoDup nm :
  one_request_per_url nm -> NoDup (outstanding nm).
Proof.
  intros Hnm. unfold outstanding.
  apply NoDup_fmap_2_strong; [|apply NoDup_map_to_list].
  intros [r1 u1] [r2 u2] H1%elem_of_map_to_list H2%elem_of_map_to_list.
  cbn. intros <-. f_equal. by apply (Hnm r1 r2 u1).
Qed.

End DownloadCoordinator.

(** ** Properties of the tile manager *)

Section TileManager.

Import ImageManager.

Context `{Platform}.

Implicit Types (url : QUrl) (s : t) (pixmap : QPixmap).

Local Arguments getImageFromDevice : simpl never.
Local Arguments getImageInternal : simpl never.
Local Arguments insertTileToMemoryCache : simpl never.
Local Arguments findTileInMemoryCache : simpl never.
Local Arguments rawImageFromDiskCache : simpl never.

Ltac unfold_im :=
  unfold mbind, M_bind, bind, ret, get, modify, note, emit,
         result, after, events in *.

Lemma after_triple {A} (a : A) s (e : list Event) : after (a, s, e) = s.
Proof. done. Qed.

Lemma result_triple {A} (a : A) s (e : list Event) : result (a, s, e) = a.
Proof. done. Qed.

Lemma events_triple {A} (a : A) s (e : list Event) : events (a, s, e) = e.
Proof. done. Qed.

Ltac project := rewrite ?after_triple, ?result_triple, ?events_triple.

Lemma findTileInMemoryCache_result url s :
  result (findTileInMemoryCache url s)
  = QCache.peek (hashTileUrl s url) (m_memoryCache s).
Proof.
  unfold findTileInMemoryCache, result.
  rewrite <- QCache_object_result.
  by destruct (QCache.object _ _).
Qed.

Lemma findTileInMemoryCache_events url s :
  events (findTileInMemoryCache url s) = [].
Proof.
  unfold findTileInMemoryCache, events. by destruct (QCache.object _ _).
Qed.

Lemma findTileInMemoryCache_after url s :
  after (findTileInMemoryCache url s)
  = set_memoryCache
      (QCache.object (hashTileUrl s url) (m_memoryCache s)).2 s.
Proof.
  unfold findTileInMemoryCache, after. by destruct (QCache.object _ _).
Qed.

(** On a miss the lookup leaves the manager as it was. *)
Lemma findTileInMemoryCache_miss url s :
  QCache.peek (hashTileUrl s url) (m_memoryCache s) = None ->
  findTileInMemoryCache url s = (None, s, []).
Proof.
  intros Hmiss. unfold findTileInMemoryCache.
  rewrite (QCache_object_miss _ _ Hmiss). by destruct s.
Qed.

Lemma findTileInMemoryCache_hit url s pixmap :
  QCache.peek (hashTileUrl s url) (m_memoryCache s) = Some pixmap ->
  findTileInMemoryCache url s
  = (Some pixmap,
     set_memoryCache
       (QCache.object (hashTileUrl s url) (m_memoryCache s)).2 s, []).
Proof.
  intros Hhit. unfold findTileInMemoryCache.
  rewrite <- QCache_object_result in Hhit.
  destruct (QCache.object _ _) as [entry cache]. cbn in *. by subst.
Qed.

(** What [getImage] does on a hit. *)
Lemma getImage_memory_hit_run url s pixmap :
  QCache.peek (hashTileUrl s url) (m_memoryCache s) = Some pixmap ->
  result (getImage url s) = pixmap
  /\ events (getImage url s) = []
  /\ after (getImage url s)
     = set_memoryCache
         (QCache.object (hashTileUrl s url) (m_memoryCache s)).2 s.
Proof.
  intros Hhit. unfold getImage. unfold_im.
  by rewrite (findTileInMemoryCache_hit _ _ _ Hhit).
Qed.

(** C2.  A tile held by the memory cache is returned from it: the call
    returns the cached pixmap and shows nothing outside (no download
    signal, no call on the tile provider, no read of the persistent
    cache), and the download coordinator is left as it was. *)
Theorem getImage_memory_hit url s pixmap :
  QCache.peek (hashTileUrl s url) (m_memoryCache s) = Some pixmap ->
  result (getImage url s) = pixmap
  /\ events (getImage url s) = []
  /\ m_networkManager (after (getImage url s)) = m_networkManager s.
Proof.
  intros Hhit. unfold getImage. unfold_im.
  by rewrite (findTileInMemoryCache_hit _ _ _ Hhit).
Qed.

(** C10, as the code has it.  Prefetching a tile that the memory cache
    holds produces no event (no download signal, no notification, no
    provider or disk access) and leaves the prefetch set, the download
    coordinator, the persistent cache and every other member as before.
    The memory cache is not left unchanged: the lookup moves the entry of
    the tile to the most recently used end.  That is all it does: the cache
    keeps its capacity and exactly its entries, and every lookup answers as
    before. *)
Theorem prefetchImage_cached_refreshes_recency_only url s pixmap :
  QCache.peek (hashTileUrl s url) (m_memoryCache s) = Some pixmap ->
  events (prefetchImage url s) = []
  /\ m_prefetchUrls (after (prefetchImage url s)) = m_prefetchUrls s
  /\ m_networkManager (after (prefetchImage url s)) = m_networkManager s
  /\ m_diskCache (after (prefetchImage url s)) = m_diskCache s
  /\ after (prefetchImage url s)
     = set_memoryCache (m_memoryCache (after (prefetchImage url s))) s
  /\ (exists n,
        QCache.find_node (hashTileUrl s url) (QCache.chain (m_memoryCache s))
        = Some n
        /\ QCache.node_obj n = pixmap
        /\ QCache.chain (m_memoryCache (after (prefetchImage url s)))
           = n :: QCache.unlink (hashTileUrl s url)
                    (QCache.chain (m_memoryCache s)))
  /\ QCache.mx (m_memoryCache (after (prefetchImage url s)))
     = QCache.mx (m_memoryCache s)
  /\ QCache.chain (m_memoryCache (after (prefetchImage url s)))
     ≡ₚ QCache.chain (m_memoryCache s)
  /\ (forall key,
        QCache.peek key (m_memoryCache (after (prefetchImage url s)))
        = QCache.peek key (m_memoryCache s)).
Proof.
  intros Hhit. unfold prefetchImage. unfold_im.
  rewrite (findTileInMemoryCache_hit _ _ _ Hhit). cbn.
  repeat apply conj; try done.
  - unfold QCache.peek in Hhit. unfold QCache.object.
    destruct (QCache.find_node (hashTileUrl s url)
                (QCache.chain (m_memoryCache s))) as [n|]; [|done].
    exists n. cbn in Hhit. by injection Hhit as ->.
  - apply QCache_object_mx.
  - apply QCache_object_perm.
  - intros key. apply QCache_object_peek.
Qed.

(** *** The miss path *)

Lemma getImage_miss url s :
  QCache.peek (hashTileUrl s url) (m_memoryCache s) = None ->
  getImage url s = getImageInternal url s.
Proof.
  intros Hmiss. unfold getImage. unfold_im.
  rewrite (findTileInMemoryCache_miss _ _ Hmiss).
  by destruct (getImageInternal url s) as [[? ?] ?].
Qed.

Lemma insertTileToMemoryCache_null url s pixmap :
  isNull pixmap = true -> insertTileToMemoryCache url pixmap s = (tt, s, []).
Proof. intros Hnull. unfold insertTileToMemoryCache. by rewrite Hnull. Qed.

Lemma insertTileToMemoryCache_events url s pixmap :
  events (insertTileToMemoryCache url pixmap s) = [].
Proof. unfold insertTileToMemoryCache. by destruct (isNull pixmap). Qed.

Lemma insertTileToMemoryCache_after url s pixmap :
  after (insertTileToMemoryCache url pixmap s)
  = if isNull pixmap then s
    else set_memoryCache
           (QCache.insert (hashTileUrl s url) pixmap (pixmap_cost pixmap)
              (m_memoryCache s)) s.
Proof. unfold insertTileToMemoryCache. by destruct (isNull pixmap). Qed.

(** A usable tile that fits the cache is found by the next lookup. *)
Lemma insertTileToMemoryCache_found url s pixmap :
  isNull pixmap = false ->
  pixmap_cost pixmap <= QCache.mx (m_memoryCache s) ->
  QCache.peek (hashTileUrl s url)
    (m_memoryCache (after (insertTileToMemoryCache url pixmap s)))
  = Some pixmap.
Proof.
  intros Hnull Hfit. rewrite insertTileToMemoryCache_after, Hnull.
  cbn. by apply QCache_insert_peek.
Qed.

Lemma getImageFromDevice_run url bytes s :
  getImageFromDevice url bytes s
  = (fromImageReader bytes, served url (fromImageReader bytes) s, []).
Proof.
  unfold getImageFromDevice, served, insertTileToMemoryCache.
  destruct (isNull (fromImageReader bytes)); reflexivity.
Qed.

Lemma served_found url s pixmap :
  isNull pixmap = false ->
  pixmap_cost pixmap <= QCache.mx (m_memoryCache s) ->
  QCache.peek (hashTileUrl s url) (m_memoryCache (served url pixmap s))
  = Some pixmap.
Proof. intros. unfold served. cbn. by apply insertTileToMemoryCache_found. Qed.

Lemma served_networkManager url s pixmap :
  m_networkManager (served url pixmap s) = m_networkManager s.
Proof.
  unfold served. rewrite insertTileToMemoryCache_after.
  by destruct (isNull pixmap).
Qed.

Local Ltac decide_policy :=
  repeat first
    [ rewrite bool_decide_eq_true_2 by reflexivity
    | rewrite bool_decide_eq_false_2 by discriminate ];
  cbn.

(** The five ways through [getImageInternal]. *)
Lemma getImageInternal_provider_data url s provider bytes :
  m_tileProvider s = Some provider ->
  getTileData provider url = (true, bytes) ->
  getImageInternal url s
  = (fromImageReader bytes, served url (fromImageReader bytes) s,
     [ProviderGetTileData url]).
Proof.
  intros Hp Hdata. unfold getImageInternal. unfold_im.
  rewrite Hp, Hdata. cbn. by rewrite getImageFromDevice_run.
Qed.

Lemma getImageInternal_provider_no_data url s provider bytes :
  m_tileProvider s = Some provider ->
  getTileData provider url = (false, bytes) ->
  getImageInternal url s = (m_pixmapEmpty s, s, [ProviderGetTileData url]).
Proof.
  intros Hp Hdata. unfold getImageInternal. unfold_im. by rewrite Hp, Hdata.
Qed.

Lemma getImageInternal_persistent url s bytes :
  m_tileProvider s = None ->
  m_cachePolicy s = AlwaysCache \/ m_cachePolicy s = PreferCache ->
  persistent s url = Some bytes ->
  getImageInternal url s
  = (fromImageReader bytes, served url (fromImageReader bytes) s,
     [DiskCacheData url]).
Proof.
  intros Hp Hpol Hdisk. unfold getImageInternal. unfold_im. rewrite Hp.
  unfold persistent in Hdisk.
  destruct (m_diskCache s) as [dc|]; [|done].
  destruct Hpol as [-> | ->]; cbn; rewrite Hdisk; decide_policy;
    by rewrite getImageFromDevice_run.
Qed.

Lemma getImageInternal_offline url s :
  m_tileProvider s = None ->
  m_cachePolicy s = AlwaysCache ->
  persistent s url = None ->
  getImageInternal url s = (m_pixmapEmpty s, s, disk_read s url).
Proof.
  intros Hp Hpol Hdisk. unfold getImageInternal. unfold_im. rewrite Hp, Hpol.
  unfold persistent, disk_read in *.
  destruct (m_diskCache s) as [dc|]; cbn; [rewrite Hdisk|];
    by decide_policy.
Qed.

Lemma getImageInternal_download url s :
  m_tileProvider s = None ->
  m_cachePolicy s = AlwaysNetwork
  \/ (m_cachePolicy s = PreferCache /\ persistent s url = None) ->
  getImageInternal url s
  = (m_pixmapLoading s, deliver (downloadImage url false) s,
     (if bool_decide (m_cachePolicy s = AlwaysNetwork) then []
      else disk_read s url)
     ++ [Emit (downloadImage url false)]).
Proof.
  intros Hp Hpol. unfold getImageInternal. unfold_im. rewrite Hp.
  destruct Hpol as [-> | [-> Hdisk]]; cbn; [by decide_policy|].
  unfold persistent, disk_read in *.
  destruct (m_diskCache s) as [dc|]; cbn; [rewrite Hdisk|];
    by decide_policy.
Qed.

(** C1.  A tile that the memory cache does not hold is resolved in this
    order.  (a) With a tile provider bound, the provider is asked: its
    bytes are decoded, handed to the memory cache and returned (and a
    usable tile that fits is then found in the cache); its "no data" gives
    the empty-tile placeholder, with no disk read and no download.  (b)
    Without provider, under AlwaysCache or PreferCache, bytes held by the
    persistent cache are decoded, handed to the memory cache and returned.
    (c) Otherwise, under AlwaysCache, the empty-tile placeholder is
    returned and nothing changes.  (d) Otherwise the download signal is
    emitted for the URL and the loading-tile placeholder is returned. *)
Theorem getImage_miss_path url s :
  QCache.peek (hashTileUrl s url) (m_memoryCache s) = None ->
  (forall provider bytes,
      m_tileProvider s = Some provider ->
      getTileData provider url = (true, bytes) ->
      getImage url s
      = (fromImageReader bytes, served url (fromImageReader bytes) s,
         [ProviderGetTileData url])
      /\ m_memoryCache (served url (fromImageReader bytes) s)
         = m_memoryCache
             (after (insertTileToMemoryCache url (fromImageReader bytes) s))
      /\ (isNull (fromImageReader bytes) = false ->
          pixmap_cost (fromImageReader bytes) <= QCache.mx (m_memoryCache s) ->
          QCache.peek (hashTileUrl s url)
            (m_memoryCache (after (getImage url s)))
          = Some (fromImageReader bytes)))
  /\ (forall provider bytes,
         m_tileProvider s = Some provider ->
         getTileData provider url = (false, bytes) ->
         getImage url s = (m_pixmapEmpty s, s, [ProviderGetTileData url]))
  /\ (forall bytes,
         m_tileProvider s = None ->
         m_cachePolicy s = AlwaysCache \/ m_cachePolicy s = PreferCache ->
         persistent s url = Some bytes ->
         getImage url s
         = (fromImageReader bytes, served url (fromImageReader bytes) s,
            [DiskCacheData url])
         /\ m_memoryCache (served url (fromImageReader bytes) s)
            = m_memoryCache
                (after (insertTileToMemoryCache url (fromImageReader bytes) s))
         /\ (isNull (fromImageReader bytes) = false ->
             pixmap_cost (fromImageReader bytes) <= QCache.mx (m_memoryCache s) ->
             QCache.peek (hashTileUrl s url)
               (m_memoryCache (after (getImage url s)))
             = Some (fromImageReader bytes)))
  /\ (m_tileProvider s = None ->
      m_cachePolicy s = AlwaysCache ->
      persistent s url = None ->
      getImage url s = (m_pixmapEmpty s, s, disk_read s url))
  /\ (m_tileProvider s = None ->
      m_cachePolicy s = AlwaysNetwork
      \/ (m_cachePolicy s = PreferCache /\ persistent s url = None) ->
      getImage url s
      = (m_pixmapLoading s, deliver (downloadImage url false) s,
         (if bool_decide (m_cachePolicy s = AlwaysNetwork) then []
          else disk_read s url)
         ++ [Emit (downloadImage url false)])).
Proof.
  intros Hmiss. rewrite (getImage_miss _ _ Hmiss).
  repeat apply conj.
  - intros provider bytes Hp Hdata.
    rewrite (getImageInternal_provider_data _ _ _ _ Hp Hdata).
    split; [done|]. split; [done|].
    intros. project. by apply served_found.
  - apply getImageInternal_provider_no_data.
  - intros bytes Hp Hpol Hdisk.
    rewrite (getImageInternal_persistent _ _ _ Hp Hpol Hdisk).
    split; [done|]. split; [done|].
    intros. project. by apply served_found.
  - apply getImageInternal_offline.
  - apply getImageInternal_download.
Qed.

(** C3.  Under AlwaysCache and without tile provider, a tile that the
    memory cache does not hold never causes a download: no download signal
    is emitted and the download coordinator is left untouched; and when
    the persistent cache does not hold the tile either, the empty-tile
    placeholder is returned. *)
Theorem getImage_AlwaysCache_no_download url s :
  m_cachePolicy s = AlwaysCache ->
  m_tileProvider s = None ->
  QCache.peek (hashTileUrl s url) (m_memoryCache s) = None ->
  (forall u cacheOnly,
      Emit (downloadImage u cacheOnly) ∉ events (getImage url s))
  /\ m_networkManager (after (getImage url s)) = m_networkManager s
  /\ (persistent s url = None ->
      result (getImage url s) = m_pixmapEmpty s
      /\ after (getImage url s) = s).
Proof.
  intros Hpol Hp Hmiss. rewrite (getImage_miss _ _ Hmiss).
  destruct (persistent s url) as [bytes|] eqn:Hdisk.
  - rewrite (getImageInternal_persistent _ _ _ Hp (or_introl Hpol) Hdisk).
    project. split; [|split; [|done]].
    + intros u c Hin. apply list_elem_of_singleton in Hin. discriminate.
    + apply served_networkManager.
  - rewrite (getImageInternal_offline _ _ Hp Hpol Hdisk). project.
    split; [|done].
    intros u c Hin. unfold disk_read in Hin.
    destruct (m_diskCache s); [|by apply not_elem_of_nil in Hin].
    apply list_elem_of_singleton in Hin. discriminate.
Qed.

(** C8, as the code has it.  When the bytes of a tile do not decode, the
    null pixmap that the decoder produced is what is returned, no
    placeholder standing in for it, and nothing is inserted into the
    memory cache; this holds for the bytes of the tile provider and for
    those of the persistent cache. *)
Theorem decode_failure_returns_null_pixmap url bytes s :
  isNull (fromImageReader bytes) = true ->
  (result (getImageFromDevice url bytes s) = fromImageReader bytes
   /\ m_memoryCache (after (getImageFromDevice url bytes s)) = m_memoryCache s
   /\ events (getImageFromDevice url bytes s) = [])
  /\ (QCache.peek (hashTileUrl s url) (m_memoryCache s) = None ->
      (exists provider,
          m_tileProvider s = Some provider
          /\ getTileData provider url = (true, bytes))
      \/ (m_tileProvider s = None
          /\ (m_cachePolicy s = AlwaysCache \/ m_cachePolicy s = PreferCache)
          /\ persistent s url = Some bytes) ->
      isNull (result (getImage url s)) = true
      /\ m_memoryCache (after (getImage url s)) = m_memoryCache s).
Proof.
  intros Hnull.
  assert (m_memoryCache (served url (fromImageReader bytes) s)
          = m_memoryCache s) as Hsame.
  { unfold served. cbn. by rewrite insertTileToMemoryCache_null. }
  split.
  - by rewrite getImageFromDevice_run.
  - intros Hmiss Hsrc. rewrite (getImage_miss _ _ Hmiss).
    destruct Hsrc as [(provider & Hp & Hdata) | (Hp & Hpol & Hdisk)].
    + by rewrite (getImageInternal_provider_data _ _ _ _ Hp Hdata).
    + by rewrite (getImageInternal_persistent _ _ _ Hp Hpol Hdisk).
Qed.

(** *** Completion of a download *)

Lemma handleImageDownloaded_run url pixmap s :
  handleImageDownloaded url pixmap s
  = if bool_decide (url ∈ m_prefetchUrls s)
    then (tt,
          after (insertTileToMemoryCache url pixmap
                   (set_prefetchUrls (m_prefetchUrls s ∖ {[url]}) s)),
          [])
    else (tt, after (insertTileToMemoryCache url pixmap s),
          [Emit (imageUpdated url)]).
Proof.
  unfold handleImageDownloaded. unfold_im.
  case_bool_decide; cbn; unfold insertTileToMemoryCache;
    by destruct (isNull pixmap).
Qed.

(** C5.  When the download of a URL completes: if the URL is in the
    prefetch set it is taken out of it and no [imageUpdated] is emitted
    (nothing is); if it is not, [imageUpdated(url)] is emitted and the
    prefetch set stays as it is.  In both cases the pixmap is handed to
    the memory cache, where a usable pixmap that fits is then found.  In
    particular a URL that [prefetchImage] sent for download completes
    silently. *)
Theorem handleImageDownloaded_prefetch url pixmap s :
  (url ∈ m_prefetchUrls s ->
     (url ∉ m_prefetchUrls (after (handleImageDownloaded url pixmap s)))
     /\ events (handleImageDownloaded url pixmap s) = [])
  /\ (url ∉ m_prefetchUrls s ->
      events (handleImageDownloaded url pixmap s) = [Emit (imageUpdated url)]
      /\ m_prefetchUrls (after (handleImageDownloaded url pixmap s))
         = m_prefetchUrls s)
  /\ m_memoryCache (after (handleImageDownloaded url pixmap s))
     = m_memoryCache (after (insertTileToMemoryCache url pixmap s))
  /\ (isNull pixmap = false ->
      pixmap_cost pixmap <= QCache.mx (m_memoryCache s) ->
      QCache.peek (hashTileUrl s url)
        (m_memoryCache (after (handleImageDownloaded url pixmap s)))
      = Some pixmap)
  /\ (QCache.peek (hashTileUrl s url) (m_memoryCache s) = None ->
      m_tileProvider s = None ->
      m_cachePolicy s = AlwaysNetwork \/ persistent s url = None ->
      url ∈ m_prefetchUrls (after (prefetchImage url s))
      /\ events (handleImageDownloaded url pixmap (after (prefetchImage url s)))
         = []).
Proof.
  assert (m_memoryCache (after (handleImageDownloaded url pixmap s))
          = m_memoryCache (after (insertTileToMemoryCache url pixmap s)))
    as Hcache.
  { rewrite handleImageDownloaded_run. case_bool_decide; [|done].
    project. rewrite !insertTileToMemoryCache_after.
    by destruct (isNull pixmap). }
  repeat apply conj.
  - intros Hin. rewrite handleImageDownloaded_run.
    rewrite bool_decide_eq_true_2 by exact Hin. split; [|done].
    project. rewrite insertTileToMemoryCache_after.
    destruct (isNull pixmap); cbn; intros [_ Hn]%elem_of_difference;
      by apply Hn, elem_of_singleton.
  - intros Hout. rewrite handleImageDownloaded_run.
    rewrite bool_decide_eq_false_2 by exact Hout. split; [done|].
    project. rewrite insertTileToMemoryCache_after.
    by destruct (isNull pixmap).
  - exact Hcache.
  - intros Hnull Hfit. rewrite Hcache.
    by apply insertTileToMemoryCache_found.
  - intros Hmiss Hp Hsrc.
    assert (url ∈ m_prefetchUrls (after (prefetchImage url s))) as Hin.
    { unfold prefetchImage. unfold_im.
      rewrite (findTileInMemoryCache_miss _ _ Hmiss). cbn.
      unfold getImageInternal. unfold_im. cbn. rewrite Hp.
      assert (m_cachePolicy s <> AlwaysNetwork -> persistent s url = None)
        as Hdisk by (intros; by destruct Hsrc).
      unfold persistent in Hdisk. clear Hsrc.
      destruct (m_cachePolicy s); decide_policy;
        destruct (m_diskCache s) as [dc|]; cbn;
        rewrite ?Hdisk by discriminate; decide_policy; set_solver. }
    split; [done|].
    rewrite handleImageDownloaded_run.
    by rewrite bool_decide_eq_true_2.
Qed.

(** *** The cache policy *)

(** C6.  [setCachePolicy] stores its argument, whatever it is.  With
    AlwaysCache it aborts the outstanding downloads (none is left) and
    clears the prefetch set; with AlwaysNetwork the network layer is left
    without cache; with PreferCache the network layer receives the
    persistent cache the manager was configured with.  The last two leave
    the outstanding downloads and the prefetch set alone. *)
Theorem setCachePolicy_effects s :
  (forall policy, m_cachePolicy (after (setCachePolicy policy s)) = policy)
  /\ (NetworkManager.m_downloadRequests
        (m_networkManager (after (setCachePolicy AlwaysCache s))) = ∅
      /\ NetworkManager.downloadQueueSize
           (m_networkManager (after (setCachePolicy AlwaysCache s))) = 0
      /\ m_prefetchUrls (after (setCachePolicy AlwaysCache s)) = ∅)
  /\ NetworkManager.m_accessManager_cache
       (m_networkManager (after (setCachePolicy AlwaysNetwork s))) = None
  /\ NetworkManager.m_accessManager_cache
       (m_networkManager (after (setCachePolicy PreferCache s)))
     = diskCachePtr s
  /\ (forall policy,
        policy <> AlwaysCache ->
        NetworkManager.m_downloadRequests
          (m_networkManager (after (setCachePolicy policy s)))
        = NetworkManager.m_downloadRequests (m_networkManager s)
        /\ m_prefetchUrls (after (setCachePolicy policy s))
           = m_prefetchUrls s).
Proof.
  repeat apply conj; try done.
  - by intros [].
  - by intros [].
Qed.

(** *** Warming the persistent cache *)

Lemma rawImageFromDiskCache_after url s :
  after (rawImageFromDiskCache url s) = s.
Proof.
  unfold rawImageFromDiskCache. unfold_im.
  destruct (m_tileProvider s); [done|].
  destruct (m_diskCache s) as [dc|]; [|done].
  by destruct (data dc url).
Qed.

(** C7.  [cacheImageToDisk] returns [true] and starts no download when
    the policy is AlwaysCache or PreferCache and the provider or the
    persistent cache has bytes for the URL, emitting [imageCached]; it
    returns [true], silently and without download, under AlwaysCache when
    there are no bytes; in every other case it emits the cache-only
    download signal and returns [false]. *)
Theorem cacheImageToDisk_cases url s :
  (m_cachePolicy s = AlwaysCache \/ m_cachePolicy s = PreferCache ->
   0 < size_bytes (result (rawImageFromDiskCache url s)) ->
   cacheImageToDisk url s
   = (true, s, events (rawImageFromDiskCache url s) ++ [Emit imageCached]))
  /\ (m_cachePolicy s = AlwaysCache ->
      size_bytes (result (rawImageFromDiskCache url s)) = 0 ->
      cacheImageToDisk url s = (true, s, events (rawImageFromDiskCache url s)))
  /\ (m_cachePolicy s = PreferCache ->
      size_bytes (result (rawImageFromDiskCache url s)) = 0 ->
      cacheImageToDisk url s
      = (false, deliver (downloadImage url true) s,
         events (rawImageFromDiskCache url s)
         ++ [Emit (downloadImage url true)]))
  /\ (m_cachePolicy s = AlwaysNetwork ->
      cacheImageToDisk url s
      = (false, deliver (downloadImage url true) s,
         [Emit (downloadImage url true)])).
Proof.
  pose proof (rawImageFromDiskCache_after url s) as Hsame.
  unfold cacheImageToDisk, handleImageCached. unfold_im.
  repeat apply conj.
  - intros Hpol Hraw. apply Z.ltb_lt in Hraw.
    destruct Hpol as [-> | ->]; decide_policy;
      destruct (rawImageFromDiskCache url s) as [[raw s1] ev];
      cbn in *; subst s1; by rewrite Hraw.
  - intros -> Hraw. decide_policy.
    destruct (rawImageFromDiskCache url s) as [[raw s1] ev].
    cbn in *. subst s1.
    assert ((0 <? size_bytes raw) = false) as -> by lia.
    decide_policy. by rewrite app_nil_r.
  - intros -> Hraw. decide_policy.
    destruct (rawImageFromDiskCache url s) as [[raw s1] ev].
    cbn in *. subst s1.
    assert ((0 <? size_bytes raw) = false) as -> by lia.
    by decide_policy.
  - intros ->. by decide_policy.
Qed.

(** *** The invariants of the manager *)

Section Keeps.

Variable I : t -> Prop.

Lemma keeps_ret {A} (a : A) : keeps I (ret a).
Proof. by intros s Hs. Qed.

Lemma keeps_get : keeps I get.
Proof. by intros s Hs. Qed.

Lemma keeps_note e : keeps I (note e).
Proof. by intros s Hs. Qed.

Lemma keeps_modify (f : t -> t) :
  (forall s, I s -> I (f s)) -> keeps I (modify f).
Proof. intros Hf s Hs. by apply Hf. Qed.

Lemma keeps_bind {A B} (m : M A) (k : A -> M B) :
  keeps I m -> (forall a, keeps I (k a)) -> keeps I (m ≫= k).
Proof.
  intros Hm Hk s Hs. unfold_im. specialize (Hm s Hs).
  destruct (m s) as [[a s1] e1]. specialize (Hk a s1 Hm).
  by destruct (k a s1) as [[b s2] e2].
Qed.

End Keeps.

Lemma sound_emit sig : keeps cache_sound (emit sig).
Proof. intros s Hs. by destruct sig. Qed.

Lemma sound_findTileInMemoryCache url :
  keeps cache_sound (findTileInMemoryCache url).
Proof.
  intros s Hs. rewrite findTileInMemoryCache_after.
  by apply QCache_sound_object.
Qed.

Lemma sound_insertTileToMemoryCache url pixmap :
  keeps cache_sound (insertTileToMemoryCache url pixmap).
Proof.
  intros s Hs. rewrite insertTileToMemoryCache_after.
  destruct (isNull pixmap) eqn:Hnull; [done|].
  by apply QCache_sound_insert.
Qed.

Lemma sound_setMemoryCacheCapacity n :
  keeps cache_sound (setMemoryCacheCapacity n).
Proof. intros s Hs. by apply QCache_sound_setMaxCost. Qed.

Lemma deduplicated_emit sig : keeps deduplicated (emit sig).
Proof.
  intros s Hs. destruct sig; [|done..].
  by apply one_request_downloadImage.
Qed.

Lemma deduplicated_findTileInMemoryCache url :
  keeps deduplicated (findTileInMemoryCache url).
Proof. intros s Hs. by rewrite findTileInMemoryCache_after. Qed.

Lemma deduplicated_insertTileToMemoryCache url pixmap :
  keeps deduplicated (insertTileToMemoryCache url pixmap).
Proof.
  intros s Hs. rewrite insertTileToMemoryCache_after.
  by destruct (isNull pixmap).
Qed.

Lemma deduplicated_abortDownloads s :
  deduplicated
    (set_networkManager (NetworkManager.abortDownloads (m_networkManager s)) s).
Proof. apply one_request_abortDownloads. Qed.

Create HintDb keeps.
#[local] Hint Resolve keeps_ret keeps_get keeps_note
  sound_emit sound_findTileInMemoryCache sound_insertTileToMemoryCache
  sound_setMemoryCacheCapacity
  deduplicated_emit deduplicated_findTileInMemoryCache
  deduplicated_insertTileToMemoryCache : keeps.

(** One step through a method: the primitives by the hints, a [modify]
    that leaves alone what the invariant looks at, a bind, a branch. *)
Ltac keep_step :=
  first
    [ solve [auto with keeps]
    | apply keeps_modify;
      let s := fresh "s" in
      let Hs := fresh "Hs" in
      intros s Hs;
      solve [ exact Hs
            | apply deduplicated_abortDownloads
            | destruct (m_diskCache s); exact Hs ]
    | apply keeps_bind; [|intros ?]
    | progress cbv zeta
    | match goal with
      | |- keeps _ (match ?x with _ => _ end) => destruct x
      end ].

Lemma keeps_getImageFromDevice I url bytes :
  keeps I (insertTileToMemoryCache url (fromImageReader bytes)) ->
  (forall s v, I s -> I (set_prefetchUrls v s)) ->
  keeps I (getImageFromDevice url bytes).
Proof.
  intros Hins Hset. unfold getImageFromDevice.
  apply keeps_bind; [done|]. intros _.
  apply keeps_bind; [|intros; apply keeps_ret].
  apply keeps_modify. intros s Hs. by apply Hset.
Qed.

Ltac keep :=
  repeat first
    [ keep_step
    | apply keeps_getImageFromDevice;
      [ auto with keeps | intros ? ? Hs; exact Hs ] ].

Lemma keeps_getImageInternal I url :
  (forall sig, keeps I (emit sig)) ->
  (forall u pixmap, keeps I (insertTileToMemoryCache u pixmap)) ->
  (forall s v, I s -> I (set_prefetchUrls v s)) ->
  keeps I (getImageInternal url).
Proof.
  intros Hemit Hins Hset. unfold getImageInternal.
  repeat first
    [ apply Hemit | apply keeps_ret | apply keeps_get | apply keeps_note
    | apply keeps_getImageFromDevice; [apply Hins | apply Hset]
    | apply keeps_bind; [|intros ?]
    | progress cbv zeta
    | match goal with
      | |- keeps _ (match ?x with _ => _ end) => destruct x
      end ].
Qed.

Lemma sound_getImageInternal url : keeps cache_sound (getImageInternal url).
Proof.
  apply keeps_getImageInternal; auto with keeps.
Qed.

Lemma deduplicated_getImageInternal url :
  keeps deduplicated (getImageInternal url).
Proof.
  apply keeps_getImageInternal; auto with keeps.
Qed.

#[local] Hint Resolve sound_getImageInternal deduplicated_getImageInternal
  : keeps.

(** Every call keeps both invariants. *)
Lemma call_keeps_sound c s : cache_sound s -> cache_sound (call s c).
Proof.
  revert s. destruct c; cbn [call];
    try match goal with |- forall s, _ -> cache_sound (after (?m s)) =>
          change (keeps cache_sound m) end.
  - unfold getImage. keep.
  - unfold prefetchImage. keep.
  - unfold cacheImageToDisk, rawImageFromDiskCache, handleImageCached. keep.
  - unfold setCachePolicy, abortLoading. keep.
  - unfold handleImageDownloaded. keep.
  - unfold handleImageCached. keep.
  - keep.
  - unfold setTileSizePx, setupPlaceholderPixmaps. keep.
  - unfold configureDiskCache. keep.
  - unfold clearDiskCache. keep.
  - unfold abortLoading. keep.
  - unfold setLoadingPixmap. keep.
  - unfold setEmptyPixmap. keep.
  - unfold setCustomTileProvider, abortLoading. keep.
  - by intros s Hs.
Qed.

Lemma call_keeps_deduplicated c s : deduplicated s -> deduplicated (call s c).
Proof.
  revert s. destruct c; cbn [call];
    try match goal with |- forall s, _ -> deduplicated (after (?m s)) =>
          change (keeps deduplicated m) end.
  - unfold getImage. keep.
  - unfold prefetchImage. keep.
  - unfold cacheImageToDisk, rawImageFromDiskCache, handleImageCached. keep.
  - unfold setCachePolicy, abortLoading. keep.
  - unfold handleImageDownloaded. keep.
  - unfold handleImageCached. keep.
  - unfold setMemoryCacheCapacity. keep.
  - unfold setTileSizePx, setupPlaceholderPixmaps. keep.
  - unfold configureDiskCache. keep.
  - unfold clearDiskCache. keep.
  - unfold abortLoading. keep.
  - unfold setLoadingPixmap. keep.
  - unfold setEmptyPixmap. keep.
  - unfold setCustomTileProvider, abortLoading. keep.
  - intros s Hs. by apply one_request_call.
Qed.

Lemma run_invariant (I : t -> Prop) tile_size_px epsg calls :
  I (construct tile_size_px epsg) ->
  (forall c s, I s -> I (call s c)) ->
  I (run tile_size_px epsg calls).
Proof.
  intros Hinit Hstep. unfold run.
  generalize dependent (construct tile_size_px epsg).
  induction calls as [|c calls IH]; intros s Hs; cbn; [done|].
  by apply IH, Hstep.
Qed.

Lemma cache_sound_run tile_size_px epsg calls :
  cache_sound (run tile_size_px epsg calls).
Proof.
  apply run_invariant; [|intros; by apply call_keeps_sound].
  unfold cache_sound, construct. cbn.
  apply QCache_sound_setMaxCost. constructor.
Qed.

Lemma deduplicated_run tile_size_px epsg calls :
  deduplicated (run tile_size_px epsg calls).
Proof.
  apply run_invariant; [|intros; by apply call_keeps_deduplicated].
  apply one_request_init.
Qed.

(** C9.  A null pixmap never enters the memory cache.  Inserting a null
    pixmap leaves the manager exactly as it was; whatever is called on a
    manager, in whatever order, every entry of its memory cache is a
    non-null pixmap; and so every lookup that succeeds yields a non-null
    pixmap, which is what [getImage] asserts on its hit path. *)
Theorem memory_cache_never_holds_null :
  (forall url s pixmap,
      isNull pixmap = true ->
      insertTileToMemoryCache url pixmap s = (tt, s, []))
  /\ (forall tile_size_px epsg calls,
        Forall (fun n => isNull (QCache.node_obj n) = false)
          (QCache.chain (m_memoryCache (run tile_size_px epsg calls))))
  /\ (forall tile_size_px epsg calls url pixmap,
        result (findTileInMemoryCache url (run tile_size_px epsg calls))
        = Some pixmap ->
        isNull pixmap = false).
Proof.
  repeat apply conj.
  - intros url s pixmap. apply insertTileToMemoryCache_null.
  - intros. apply cache_sound_run.
  - intros tile_size_px epsg calls url pixmap Hfound.
    rewrite findTileInMemoryCache_result in Hfound.
    eapply QCache_sound_peek; [|exact Hfound].
    apply cache_sound_run.
Qed.

(** *** One download per URL *)

(** C4.  Whatever has been called on the coordinator (downloads asked,
    finished or failed, swept as timed out, aborted), no URL has two
    outstanding requests: two replies recorded for one URL are the same
    reply, and the outstanding URLs are all different.  Asking for a URL
    that is being downloaded changes nothing: no transport operation is
    started and the request table stays as it is; once the request has
    finished, asking again starts a transport operation.  The coordinator
    that a tile manager owns is in that state whatever is called on the
    manager. *)
Theorem one_download_in_flight_per_url :
  (forall calls,
      NetworkManager.one_request_per_url (NetworkManager.run calls)
      /\ NoDup (NetworkManager.outstanding (NetworkManager.run calls)))
  /\ (forall calls url cacheOnly,
        NetworkManager.isDownloading url (NetworkManager.run calls) = true ->
        NetworkManager.downloadImage url cacheOnly (NetworkManager.run calls)
        = NetworkManager.run calls)
  /\ (forall nm url cacheOnly,
        NetworkManager.isDownloading url nm = true ->
        NetworkManager.m_accessManager_issued
          (NetworkManager.downloadImage url cacheOnly nm)
        = NetworkManager.m_accessManager_issued nm
        /\ NetworkManager.m_downloadRequests
             (NetworkManager.downloadImage url cacheOnly nm)
           = NetworkManager.m_downloadRequests nm)
  /\ (forall calls reply url cacheOnly,
        NetworkManager.m_downloadRequests (NetworkManager.run calls) !! reply
        = Some url ->
        NetworkManager.m_accessManager_issued
          (NetworkManager.downloadImage url cacheOnly
             (NetworkManager.downloadFinished reply (NetworkManager.run calls)))
        = (url, cacheOnly)
          :: NetworkManager.m_accessManager_issued (NetworkManager.run calls))
  /\ (forall tile_size_px epsg calls,
        NetworkManager.one_request_per_url
          (m_networkManager (run tile_size_px epsg calls))
        /\ NoDup (NetworkManager.outstanding
                    (m_networkManager (run tile_size_px epsg calls)))).
Proof.
  split; [|split; [|split; [|split]]].
  - intros calls.
    assert (NetworkManager.one_request_per_url (NetworkManager.run calls))
      as Hrun by apply one_request_foldl, one_request_init.
    split; [done | by apply one_request_NoDup].
  - intros calls url cacheOnly Hbusy.
    unfold NetworkManager.downloadImage. by rewrite Hbusy.
  - intros nm url cacheOnly Hbusy.
    unfold NetworkManager.downloadImage. by rewrite Hbusy.
  - intros calls reply url cacheOnly Hreply.
    assert (NetworkManager.one_request_per_url (NetworkManager.run calls))
      as Hrun by apply one_request_foldl, one_request_init.
    pose proof (downloadFinished_frees _ _ _ Hrun Hreply) as Hidle.
    by destruct (downloadImage_starts url cacheOnly _ Hidle) as [-> _].
  - intros tile_size_px epsg calls.
    pose proof (deduplicated_run tile_size_px epsg calls) as Hrun.
    split; [done | by apply one_request_NoDup].
Qed.

(** ** Further properties of the tile manager *)

(** *** Construction and placeholders *)

(** X1.  A manager as constructed works offline: whatever the tile size,
    the projection and the URL, [getImage] returns the generated empty tile
    and [cacheImageToDisk] returns [true], both without any event and
    without changing the manager.  So does the instance that
    [ImageManager::get] builds after [destroy], whose empty tile is the
    transparent tile of 256 x 256. *)
Theorem constructed_manager_is_offline tile_size_px epsg url :
  getImage url (construct tile_size_px epsg)
  = (new_pixmap tile_size_px tile_size_px Transparent,
     construct tile_size_px epsg, [])
  /\ cacheImageToDisk url (construct tile_size_px epsg)
     = (true, construct tile_size_px epsg, [])
  /\ (forall m_instance,
        getImage url (instance_get (instance_destroy m_instance) epsg).1
        = (mkPixmap 256 256 32 Transparent, construct 256 epsg, [])).
Proof.
  assert (forall n, getImage url (construct n epsg)
                    = (new_pixmap n n Transparent, construct n epsg, []))
    as Hget.
  { intros n. rewrite getImage_miss by done.
    by rewrite getImageInternal_offline. }
  split; [apply Hget|]. split; [done|].
  intros m_instance. cbn [instance_destroy instance_get fst].
  apply (Hget 256).
Qed.

Lemma setTileSizePx_after n s :
  after (setTileSizePx n s)
  = set_pixmapEmpty (new_pixmap n n Transparent)
      (set_pixmapLoading (new_pixmap n n LoadingPattern)
         (set_tile_size_px n s)).
Proof. done. Qed.

(** X2.  [setTileSizePx] regenerates both placeholders for the new size:
    for a positive size they are usable pixmaps of that size; for a size of
    zero or less they are both null pixmaps.  Placeholders installed by
    [setLoadingPixmap] and [setEmptyPixmap] are lost.  The memory cache is
    not cleared: its entries stay as they are. *)
Theorem setTileSizePx_regenerates_placeholders n s :
  (0 < n ->
     m_pixmapEmpty (after (setTileSizePx n s)) = mkPixmap n n 32 Transparent
     /\ m_pixmapLoading (after (setTileSizePx n s))
        = mkPixmap n n 32 LoadingPattern
     /\ isNull (m_pixmapEmpty (after (setTileSizePx n s))) = false
     /\ isNull (m_pixmapLoading (after (setTileSizePx n s))) = false)
  /\ (n <= 0 ->
      m_pixmapEmpty (after (setTileSizePx n s)) = null_pixmap
      /\ m_pixmapLoading (after (setTileSizePx n s)) = null_pixmap)
  /\ (forall loading empty,
        after (setTileSizePx n
                 (after (setEmptyPixmap empty
                           (after (setLoadingPixmap loading s)))))
        = after (setTileSizePx n s))
  /\ m_memoryCache (after (setTileSizePx n s)) = m_memoryCache s.
Proof.
  rewrite setTileSizePx_after. cbn.
  split; [|split; [|done]].
  - intros Hn. unfold new_pixmap, isNull.
    assert ((n <=? 0) = false) as Hle by lia. rewrite Hle. cbn.
    by rewrite Hle.
  - intros Hn. unfold new_pixmap.
    assert ((n <=? 0) = true) as Hle by lia. by rewrite Hle.
Qed.

(** X3.  The placeholders that the host installs are the ones returned:
    after [setEmptyPixmap] an offline miss and a provider without data give
    that pixmap; after [setLoadingPixmap] a miss that goes to download
    gives that pixmap. *)
Theorem installed_placeholders_are_returned url s pixmap :
  QCache.peek (hashTileUrl s url) (m_memoryCache s) = None ->
  (m_tileProvider s = None ->
   m_cachePolicy s = AlwaysCache ->
   persistent s url = None ->
   result (getImage url (after (setEmptyPixmap pixmap s))) = pixmap)
  /\ (forall provider bytes,
        m_tileProvider s = Some provider ->
        getTileData provider url = (false, bytes) ->
        result (getImage url (after (setEmptyPixmap pixmap s))) = pixmap)
  /\ (m_tileProvider s = None ->
      m_cachePolicy s = AlwaysNetwork
      \/ (m_cachePolicy s = PreferCache /\ persistent s url = None) ->
      result (getImage url (after (setLoadingPixmap pixmap s))) = pixmap).
Proof.
  intros Hmiss. repeat apply conj.
  - intros Hp Hpol Hdisk.
    rewrite getImage_miss by exact Hmiss.
    by rewrite getImageInternal_offline.
  - intros provider bytes Hp Hdata.
    rewrite getImage_miss by exact Hmiss.
    by rewrite (getImageInternal_provider_no_data _ _ provider bytes).
  - intros Hp Hpol.
    rewrite getImage_miss by exact Hmiss.
    by rewrite getImageInternal_download.
Qed.

(** *** Aborting and swapping the provider *)

Lemma abortLoading_after s :
  after (abortLoading s)
  = set_prefetchUrls ∅
      (set_networkManager
         (NetworkManager.abortDownloads (m_networkManager s)) s).
Proof. done. Qed.

(** X4.  [abortLoading] tells the download coordinator to abort, forgets
    every prefetch and touches nothing else, silently; and a download that
    completes afterwards is announced by [imageUpdated], whether its URL
    had been prefetched or not. *)
Theorem abortLoading_forgets_prefetches s :
  events (abortLoading s) = []
  /\ m_prefetchUrls (after (abortLoading s)) = ∅
  /\ after (abortLoading s)
     = set_prefetchUrls ∅
         (set_networkManager
            (NetworkManager.abortDownloads (m_networkManager s)) s)
  /\ m_memoryCache (after (abortLoading s)) = m_memoryCache s
  /\ (forall url pixmap,
        events (handleImageDownloaded url pixmap (after (abortLoading s)))
        = [Emit (imageUpdated url)]).
Proof.
  repeat apply conj; try done.
  intros url pixmap. rewrite handleImageDownloaded_run.
  rewrite bool_decide_eq_false_2; [done|].
  rewrite abortLoading_after. cbn. apply not_elem_of_empty.
Qed.

(** X5.  [setCustomTileProvider] binds the provider, tells the download
    coordinator to abort and forgets every prefetch, silently; it keeps the
    memory cache, so a tile cached before the swap is still returned
    afterwards, without the new provider being asked. *)
Theorem setCustomTileProvider_keeps_cached_tiles provider s :
  events (setCustomTileProvider provider s) = []
  /\ m_tileProvider (after (setCustomTileProvider provider s)) = provider
  /\ m_prefetchUrls (after (setCustomTileProvider provider s)) = ∅
  /\ m_networkManager (after (setCustomTileProvider provider s))
     = NetworkManager.abortDownloads (m_networkManager s)
  /\ (forall url pixmap,
        QCache.peek (hashTileUrl s url) (m_memoryCache s) = Some pixmap ->
        result (getImage url (after (setCustomTileProvider provider s)))
        = pixmap
        /\ events (getImage url (after (setCustomTileProvider provider s)))
           = []).
Proof.
  repeat apply conj; try done.
  intros url pixmap Hhit.
  destruct (getImage_memory_hit_run url
              (after (setCustomTileProvider provider s)) pixmap Hhit)
    as (? & ? & ?).
  done.
Qed.

(** *** The provider, the disk and the network *)

Lemma prefetchImage_miss_run url s :
  QCache.peek (hashTileUrl s url) (m_memoryCache s) = None ->
  prefetchImage url s
  = (tt,
     after (getImageInternal url
              (set_prefetchUrls ({[url]} ∪ m_prefetchUrls s) s)),
     events (getImageInternal url
               (set_prefetchUrls ({[url]} ∪ m_prefetchUrls s) s))).
Proof.
  intros Hmiss. unfold prefetchImage. unfold_im.
  rewrite (findTileInMemoryCache_miss _ _ Hmiss). cbn.
  destruct (getImageInternal url _) as [[? ?] ?]. cbn.
  by rewrite app_nil_r.
Qed.

Lemma prefetchImage_hit_run url s pixmap :
  QCache.peek (hashTileUrl s url) (m_memoryCache s) = Some pixmap ->
  prefetchImage url s
  = (tt,
     set_memoryCache
       (QCache.object (hashTileUrl s url) (m_memoryCache s)).2 s, []).
Proof.
  intros Hhit. unfold prefetchImage. unfold_im.
  by rewrite (findTileInMemoryCache_hit _ _ _ Hhit).
Qed.

Lemma getImageInternal_provider url s provider :
  m_tileProvider s = Some provider ->
  events (getImageInternal url s) = [ProviderGetTileData url]
  /\ m_networkManager (after (getImageInternal url s)) = m_networkManager s.
Proof.
  intros Hp. destruct (getTileData provider url) as [[|] bytes] eqn:Hdata.
  - rewrite (getImageInternal_provider_data _ _ _ _ Hp Hdata). project.
    split; [done | apply served_networkManager].
  - by rewrite (getImageInternal_provider_no_data _ _ _ _ Hp Hdata).
Qed.

(** X6.  While a tile provider is bound, [getImage] and [prefetchImage]
    never read the persistent cache and never ask for a download, whatever
    the cache policy: all they show is the one call on the provider that a
    miss makes (nothing on a hit), and the download coordinator is left as
    it was. *)
Theorem bound_provider_shadows_disk_and_network url s provider :
  m_tileProvider s = Some provider ->
  events (getImage url s)
  = match QCache.peek (hashTileUrl s url) (m_memoryCache s) with
    | Some _ => []
    | None => [ProviderGetTileData url]
    end
  /\ events (prefetchImage url s) = events (getImage url s)
  /\ m_networkManager (after (getImage url s)) = m_networkManager s
  /\ m_networkManager (after (prefetchImage url s)) = m_networkManager s.
Proof.
  intros Hp.
  destruct (QCache.peek (hashTileUrl s url) (m_memoryCache s))
    as [pixmap|] eqn:Hpeek.
  - destruct (getImage_memory_hit_run url s pixmap Hpeek) as (_ & Hev & Hst).
    rewrite (prefetchImage_hit_run url s pixmap Hpeek), Hev, Hst. by project.
  - rewrite (getImage_miss _ _ Hpeek), (prefetchImage_miss_run _ _ Hpeek).
    project.
    destruct (getImageInternal_provider url s provider Hp) as (Hev & Hnm).
    destruct (getImageInternal_provider url
                (set_prefetchUrls ({[url]} ∪ m_prefetchUrls s) s) provider Hp)
      as (Hev' & Hnm').
    by rewrite Hev, Hev', Hnm, Hnm'.
Qed.

Lemma rawImageFromDiskCache_provider url s provider :
  m_tileProvider s = Some provider ->
  rawImageFromDiskCache url s
  = ((getTileData provider url).2, s, [ProviderGetTileData url]).
Proof.
  intros Hp. unfold rawImageFromDiskCache. unfold_im. by rewrite Hp.
Qed.

Lemma rawImageFromDiskCache_no_provider url s :
  m_tileProvider s = None ->
  rawImageFromDiskCache url s
  = (default "" (persistent s url), s, disk_read s url).
Proof.
  intros Hp. unfold rawImageFromDiskCache, persistent, disk_read. unfold_im.
  rewrite Hp. destruct (m_diskCache s) as [dc|]; [|done].
  by destruct (data dc url).
Qed.

(** [cacheImageToDisk], branch by branch. *)
Lemma cacheImageToDisk_run url s :
  cacheImageToDisk url s
  = if bool_decide (m_cachePolicy s = AlwaysNetwork)
    then (false, deliver (downloadImage url true) s,
          [Emit (downloadImage url true)])
    else if 0 <? size_bytes (result (rawImageFromDiskCache url s))
    then (true, s, events (rawImageFromDiskCache url s) ++ [Emit imageCached])
    else if bool_decide (m_cachePolicy s = AlwaysCache)
    then (true, s, events (rawImageFromDiskCache url s))
    else (false, deliver (downloadImage url true) s,
          events (rawImageFromDiskCache url s)
          ++ [Emit (downloadImage url true)]).
Proof.
  pose proof (rawImageFromDiskCache_after url s) as Hsame.
  unfold cacheImageToDisk, handleImageCached. unfold_im.
  destruct (m_cachePolicy s); decide_policy; try done;
    destruct (rawImageFromDiskCache url s) as [[raw s1] ev];
    cbn in *; subst s1;
    destruct (0 <? size_bytes raw); decide_policy;
    by rewrite ?app_nil_r.
Qed.

(** X7.  [rawImageFromDiskCache] only reads: the manager is the same
    afterwards.  A bound provider is the only source asked, and what it
    left in [data] is returned even when it reports that it has no tile;
    the persistent cache is then not read, whatever it holds.  Without
    provider the bytes of the persistent cache are returned, or none. *)
Theorem rawImageFromDiskCache_reads_one_source url s :
  after (rawImageFromDiskCache url s) = s
  /\ (forall provider,
        m_tileProvider s = Some provider ->
        result (rawImageFromDiskCache url s) = (getTileData provider url).2
        /\ events (rawImageFromDiskCache url s) = [ProviderGetTileData url])
  /\ (m_tileProvider s = None ->
      result (rawImageFromDiskCache url s) = default "" (persistent s url)
      /\ events (rawImageFromDiskCache url s) = disk_read s url).
Proof.
  split; [apply rawImageFromDiskCache_after|]. split.
  - intros provider Hp. by rewrite (rawImageFromDiskCache_provider _ _ _ Hp).
  - intros Hp. by rewrite (rawImageFromDiskCache_no_provider _ _ Hp).
Qed.

Lemma rawImageFromDiskCache_no_signal url s sig :
  Emit sig ∉ events (rawImageFromDiskCache url s).
Proof.
  destruct (m_tileProvider s) as [provider|] eqn:Hp.
  - rewrite (rawImageFromDiskCache_provider _ _ _ Hp). project.
    by intros [=]%list_elem_of_singleton.
  - rewrite (rawImageFromDiskCache_no_provider _ _ Hp). project.
    unfold disk_read. destruct (m_diskCache s).
    + by intros [=]%list_elem_of_singleton.
    + apply not_elem_of_nil.
Qed.

(** X8.  [cacheImageToDisk] changes nothing of the manager but, when it
    asks for a download, its download coordinator; the memory cache and the
    prefetch set stay as they are.  The only signals it emits are
    [imageCached] and the cache-only download of the URL.  Unlike
    [getImage], it does ask for a download while a provider is bound: under
    AlwaysNetwork, and under PreferCache when the provider leaves no
    bytes. *)
Theorem cacheImageToDisk_frame url s :
  (after (cacheImageToDisk url s) = s
   \/ after (cacheImageToDisk url s) = deliver (downloadImage url true) s)
  /\ m_memoryCache (after (cacheImageToDisk url s)) = m_memoryCache s
  /\ m_prefetchUrls (after (cacheImageToDisk url s)) = m_prefetchUrls s
  /\ (forall sig,
        Emit sig ∈ events (cacheImageToDisk url s) ->
        sig = imageCached \/ sig = downloadImage url true)
  /\ (forall provider,
        m_tileProvider s = Some provider ->
        m_cachePolicy s = AlwaysNetwork
        \/ (m_cachePolicy s = PreferCache
            /\ (getTileData provider url).2 = "") ->
        result (cacheImageToDisk url s) = false
        /\ Emit (downloadImage url true) ∈ events (cacheImageToDisk url s)).
Proof.
  rewrite cacheImageToDisk_run.
  pose proof (rawImageFromDiskCache_no_signal url s) as Hraw.
  repeat apply conj.
  - repeat case_match; project; auto.
  - repeat case_match; by project.
  - repeat case_match; by project.
  - intros sig. repeat case_match; project;
      rewrite ?elem_of_app, ?list_elem_of_singleton;
      intros Hin; destruct_or?; simplify_eq; auto; by destruct (Hraw sig).
  - intros provider Hp [Hpol | [Hpol Hempty]]; rewrite Hpol; decide_policy.
    + project. split; [done | by apply list_elem_of_singleton].
    + rewrite (rawImageFromDiskCache_provider _ _ _ Hp). project.
      rewrite Hempty. change (0 <? size_bytes "") with false.
      cbn. project. split; [done|].
      apply list_elem_of_further, list_elem_of_here.
Qed.

(** *** Prefetches and update notifications *)

Lemma getImage_download_run url s :
  goes_to_download url s ->
  getImage url s
  = (m_pixmapLoading s, deliver (downloadImage url false) s,
     (if bool_decide (m_cachePolicy s = AlwaysNetwork) then []
      else disk_read s url)
     ++ [Emit (downloadImage url false)]).
Proof.
  intros (Hmiss & Hp & Hpol). rewrite (getImage_miss _ _ Hmiss).
  by apply getImageInternal_download.
Qed.

Lemma prefetchImage_download_run url s :
  goes_to_download url s ->
  prefetchImage url s
  = (tt,
     deliver (downloadImage url false)
       (set_prefetchUrls ({[url]} ∪ m_prefetchUrls s) s),
     (if bool_decide (m_cachePolicy s = AlwaysNetwork) then []
      else disk_read s url)
     ++ [Emit (downloadImage url false)]).
Proof.
  intros (Hmiss & Hp & Hpol). rewrite (prefetchImage_miss_run _ _ Hmiss).
  by rewrite getImageInternal_download.
Qed.

(** X9.  When a URL is both requested by [getImage] and prefetched before
    its download completes, in either order, the completion is silent: no
    [imageUpdated] is emitted for the tile that [getImage] is waiting for.
    The second of the two requests emits the download signal again. *)
Theorem prefetch_silences_pending_request url pixmap s :
  goes_to_download url s ->
  events (handleImageDownloaded url pixmap
            (after (prefetchImage url (after (getImage url s))))) = []
  /\ events (handleImageDownloaded url pixmap
               (after (getImage url (after (prefetchImage url s))))) = []
  /\ Emit (downloadImage url false)
     ∈ events (prefetchImage url (after (getImage url s)))
  /\ Emit (downloadImage url false)
     ∈ events (getImage url (after (prefetchImage url s))).
Proof.
  intros Hgo.
  assert (goes_to_download url (after (getImage url s))) as Hgo1.
  { rewrite (getImage_download_run _ _ Hgo). exact Hgo. }
  assert (goes_to_download url (after (prefetchImage url s))) as Hgo2.
  { rewrite (prefetchImage_download_run _ _ Hgo). exact Hgo. }
  rewrite (prefetchImage_download_run _ _ Hgo1).
  rewrite (getImage_download_run _ _ Hgo2).
  rewrite (getImage_download_run _ _ Hgo), (prefetchImage_download_run _ _ Hgo).
  project. repeat apply conj.
  - rewrite handleImageDownloaded_run, bool_decide_eq_true_2; [done|].
    cbn. set_solver.
  - rewrite handleImageDownloaded_run, bool_decide_eq_true_2; [done|].
    cbn. set_solver.
  - apply elem_of_app. right. by apply list_elem_of_singleton.
  - apply elem_of_app. right. by apply list_elem_of_singleton.
Qed.

(** X10.  A prefetch made offline (AlwaysCache, nothing on disk) asks for
    no download but stays recorded, and [setCachePolicy] to another policy
    keeps the record: when the tile is later requested by [getImage] and
    downloaded, its completion emits no [imageUpdated]. *)
Theorem offline_prefetch_outlives_policy_change url pixmap s policy :
  QCache.peek (hashTileUrl s url) (m_memoryCache s) = None ->
  m_tileProvider s = None ->
  m_cachePolicy s = AlwaysCache ->
  persistent s url = None ->
  policy <> AlwaysCache ->
  (forall u cacheOnly,
      Emit (downloadImage u cacheOnly) ∉ events (prefetchImage url s))
  /\ url ∈ m_prefetchUrls
             (after (setCachePolicy policy (after (prefetchImage url s))))
  /\ Emit (downloadImage url false)
     ∈ events (getImage url
                 (after (setCachePolicy policy (after (prefetchImage url s)))))
  /\ events (handleImageDownloaded url pixmap
               (after (getImage url
                         (after (setCachePolicy policy
                                   (after (prefetchImage url s))))))) = [].
Proof.
  intros Hmiss Hp Hpol Hdisk Hpolicy.
  rewrite (prefetchImage_miss_run _ _ Hmiss).
  rewrite getImageInternal_offline by done. project.
  set (s1 := after (setCachePolicy policy
                      (set_prefetchUrls ({[url]} ∪ m_prefetchUrls s) s))).
  assert (m_prefetchUrls s1 = {[url]} ∪ m_prefetchUrls s) as Hrec.
  { subst s1. by destruct policy. }
  assert (goes_to_download url s1) as Hgo.
  { subst s1. split; [|split]; [by destruct policy..|].
    destruct policy; [done | right | by left].
    split; [done|]. exact Hdisk. }
  repeat apply conj.
  - intros u c Hin. unfold disk_read in Hin. cbn in Hin.
    destruct (m_diskCache s); [|by apply not_elem_of_nil in Hin].
    by apply list_elem_of_singleton in Hin.
  - rewrite Hrec. apply elem_of_union. left. by apply elem_of_singleton.
  - rewrite (getImage_download_run _ _ Hgo). project.
    apply elem_of_app. right. by apply list_elem_of_singleton.
  - rewrite (getImage_download_run _ _ Hgo). project.
    rewrite handleImageDownloaded_run, bool_decide_eq_true_2; [done|].
    cbn. rewrite Hrec. apply elem_of_union. left. by apply elem_of_singleton.
Qed.

(** X11.  What [prefetchImage] leaves in the prefetch set after a miss: a
    tile served at once, by the provider or by the persistent cache, is not
    recorded; a tile that the provider does not have, or that is missing
    offline, stays recorded although no download was asked for it. *)
Theorem prefetch_record_after_miss url s :
  QCache.peek (hashTileUrl s url) (m_memoryCache s) = None ->
  (forall provider bytes,
      m_tileProvider s = Some provider ->
      getTileData provider url = (true, bytes) ->
      url ∉ m_prefetchUrls (after (prefetchImage url s)))
  /\ (forall bytes,
        m_tileProvider s = None ->
        m_cachePolicy s = AlwaysCache \/ m_cachePolicy s = PreferCache ->
        persistent s url = Some bytes ->
        url ∉ m_prefetchUrls (after (prefetchImage url s)))
  /\ (forall provider bytes,
        m_tileProvider s = Some provider ->
        getTileData provider url = (false, bytes) ->
        url ∈ m_prefetchUrls (after (prefetchImage url s))
        /\ events (prefetchImage url s) = [ProviderGetTileData url])
  /\ (m_tileProvider s = None ->
      m_cachePolicy s = AlwaysCache ->
      persistent s url = None ->
      url ∈ m_prefetchUrls (after (prefetchImage url s))
      /\ events (prefetchImage url s) = disk_read s url).
Proof.
  intros Hmiss. rewrite (prefetchImage_miss_run _ _ Hmiss).
  assert (forall pixmap s', url ∉ m_prefetchUrls (served url pixmap s'))
    as Hserved.
  { intros pixmap s'. unfold served. cbn.
    intros [_ Hn]%elem_of_difference. by apply Hn, elem_of_singleton. }
  repeat apply conj.
  - intros provider bytes Hp Hdata.
    rewrite (getImageInternal_provider_data _ _ provider bytes) by done.
    project. apply Hserved.
  - intros bytes Hp Hpol Hdisk.
    rewrite (getImageInternal_persistent _ _ bytes) by done.
    project. apply Hserved.
  - intros provider bytes Hp Hdata.
    rewrite (getImageInternal_provider_no_data _ _ provider bytes) by done.
    project. split; [|done]. cbn. set_solver.
  - intros Hp Hpol Hdisk.
    rewrite getImageInternal_offline by done.
    project. split; [|done]. cbn. set_solver.
Qed.

(** *** Tiles in the memory cache *)

Lemma neutral_call_frame c s :
  cache_neutral c = true ->
  m_memoryCache (call s c) = m_memoryCache s
  /\ m_tile_size_px (call s c) = m_tile_size_px s
  /\ projection_epsg (call s c) = projection_epsg s.
Proof.
  destruct c; try discriminate; intros _; cbn [call]; try done.
  - rewrite cacheImageToDisk_run. by repeat case_match.
  - by destruct policy.
  - by destruct mkpath_ok.
  - unfold clearDiskCache, after, modify. cbn. by destruct (m_diskCache s).
Qed.

Lemma neutral_calls_frame calls s :
  Forall (fun c => cache_neutral c = true) calls ->
  m_memoryCache (foldl call s calls) = m_memoryCache s
  /\ m_tile_size_px (foldl call s calls) = m_tile_size_px s
  /\ projection_epsg (foldl call s calls) = projection_epsg s.
Proof.
  intros Hcalls. revert s.
  induction Hcalls as [|c calls Hc _ IH]; intros s; cbn; [done|].
  destruct (IH (call s c)) as (-> & -> & ->).
  by apply neutral_call_frame.
Qed.

Lemma hashTileUrl_frame s s' url :
  m_tile_size_px s' = m_tile_size_px s ->
  projection_epsg s' = projection_epsg s ->
  hashTileUrl s' url = hashTileUrl s url.
Proof. unfold hashTileUrl. by intros -> ->. Qed.

Lemma handleImageDownloaded_frame url pixmap s :
  m_memoryCache (after (handleImageDownloaded url pixmap s))
  = m_memoryCache (after (insertTileToMemoryCache url pixmap s))
  /\ m_tile_size_px (after (handleImageDownloaded url pixmap s))
     = m_tile_size_px s
  /\ projection_epsg (after (handleImageDownloaded url pixmap s))
     = projection_epsg s.
Proof.
  rewrite handleImageDownloaded_run.
  case_bool_decide; project; rewrite !insertTileToMemoryCache_after;
    by destruct (isNull pixmap).
Qed.

(** X12.  A usable tile that a download delivered and that fits the cache
    is what [getImage] returns for its URL from then on, without any event,
    and it stays so across policy changes, provider swaps, aborts,
    reconfiguration and clearing of the persistent cache, new placeholders,
    cache-only downloads and whatever happens to the download
    coordinator. *)
Theorem downloaded_tile_is_served url pixmap s calls :
  isNull pixmap = false ->
  pixmap_cost pixmap <= QCache.mx (m_memoryCache s) ->
  Forall (fun c => cache_neutral c = true) calls ->
  result (getImage url
            (foldl call (after (handleImageDownloaded url pixmap s)) calls))
  = pixmap
  /\ events (getImage url
               (foldl call (after (handleImageDownloaded url pixmap s)) calls))
     = [].
Proof.
  intros Hnull Hfit Hcalls.
  set (s1 := after (handleImageDownloaded url pixmap s)).
  assert (QCache.peek (hashTileUrl s1 url) (m_memoryCache s1) = Some pixmap)
    as Hfound.
  { subst s1.
    destruct (handleImageDownloaded_frame url pixmap s) as (Hc & Hs & He).
    rewrite (hashTileUrl_frame s) by done. rewrite Hc.
    by apply insertTileToMemoryCache_found. }
  destruct (neutral_calls_frame calls s1 Hcalls) as (Hcache & Hsize & Hepsg).
  destruct (getImage_memory_hit_run url (foldl call s1 calls) pixmap)
    as (Hres & Hev & _); [|done].
  by rewrite (hashTileUrl_frame s1), Hcache.
Qed.

(** X13.  A tile that alone costs more than the capacity of the memory
    cache is never cached: after its download completes, or after it was
    decoded from the provider or the disk, the cache has no entry for its
    URL (the entry the URL had before is gone too), so the next [getImage]
    resolves the URL from scratch. *)
Theorem oversize_tile_is_not_cached url pixmap s :
  isNull pixmap = false ->
  QCache.mx (m_memoryCache s) < pixmap_cost pixmap ->
  QCache.peek (hashTileUrl s url)
    (m_memoryCache (after (handleImageDownloaded url pixmap s))) = None
  /\ getImage url (after (handleImageDownloaded url pixmap s))
     = getImageInternal url (after (handleImageDownloaded url pixmap s))
  /\ (forall bytes,
        fromImageReader bytes = pixmap ->
        result (getImageFromDevice url bytes s) = pixmap
        /\ QCache.peek (hashTileUrl s url)
             (m_memoryCache (after (getImageFromDevice url bytes s))) = None).
Proof.
  intros Hnull Hbig.
  assert (QCache.peek (hashTileUrl s url)
            (m_memoryCache (after (insertTileToMemoryCache url pixmap s)))
          = None) as Hgone.
  { rewrite insertTileToMemoryCache_after, Hnull. cbn.
    by apply QCache_insert_oversize. }
  destruct (handleImageDownloaded_frame url pixmap s) as (Hc & Hs & He).
  assert (QCache.peek (hashTileUrl s url)
            (m_memoryCache (after (handleImageDownloaded url pixmap s)))
          = None) as Hmiss by (by rewrite Hc).
  split; [exact Hmiss|]. split.
  - apply getImage_miss. by rewrite (hashTileUrl_frame s).
  - intros bytes <-. rewrite getImageFromDevice_run. project.
    split; [done|]. unfold served. cbn. exact Hgone.
Qed.

(** *** The capacity of the memory cache *)

Section Capacity.

(** The decoder yields no pixmap of negative cost. *)
Hypothesis Hdecoder : forall bytes, 0 <= pixmap_cost (fromImageReader bytes).

Lemma capacity_emit sig : keeps capacity_kept (emit sig).
Proof. intros s Hs. by destruct sig. Qed.

Lemma capacity_findTileInMemoryCache url :
  keeps capacity_kept (findTileInMemoryCache url).
Proof.
  intros s [Hin Hpos]. rewrite findTileInMemoryCache_after. split.
  - by apply QCache_within_object.
  - by apply QCache_nonneg_object.
Qed.

Lemma capacity_insertTileToMemoryCache url pixmap :
  0 <= pixmap_cost pixmap ->
  keeps capacity_kept (insertTileToMemoryCache url pixmap).
Proof.
  intros Hcost s [Hin Hpos]. rewrite insertTileToMemoryCache_after.
  destruct (isNull pixmap); [done|]. split.
  - by apply QCache_within_insert.
  - by apply QCache_nonneg_insert.
Qed.

Lemma capacity_setMemoryCacheCapacity n :
  keeps capacity_kept (setMemoryCacheCapacity n).
Proof.
  intros s [Hin Hpos]. split.
  - apply QCache_within_setMaxCost.
  - by apply QCache_nonneg_setMaxCost.
Qed.

Lemma capacity_getImageInternal url : keeps capacity_kept (getImageInternal url).
Proof.
  unfold getImageInternal.
  repeat first
    [ apply capacity_emit | apply keeps_ret | apply keeps_get | apply keeps_note
    | apply keeps_getImageFromDevice;
      [ apply capacity_insertTileToMemoryCache, Hdecoder
      | intros ? ? Hs; exact Hs ]
    | apply keeps_bind; [|intros ?]
    | progress cbv zeta
    | match goal with
      | |- keeps _ (match ?x with _ => _ end) => destruct x
      end ].
Qed.

#[local] Hint Resolve capacity_emit capacity_findTileInMemoryCache
  capacity_insertTileToMemoryCache capacity_setMemoryCacheCapacity
  capacity_getImageInternal : keeps.

Lemma call_keeps_capacity c s :
  tame c -> capacity_kept s -> capacity_kept (call s c).
Proof.
  intros Htame. revert s. destruct c; cbn [call]; cbn in Htame;
    try match goal with |- forall s, _ -> capacity_kept (after (?m s)) =>
          change (keeps capacity_kept m) end.
  - unfold getImage. keep.
  - unfold prefetchImage. keep.
  - unfold cacheImageToDisk, rawImageFromDiskCache, handleImageCached. keep.
  - unfold setCachePolicy, abortLoading. keep.
  - unfold handleImageDownloaded. keep.
  - unfold handleImageCached. keep.
  - keep.
  - unfold setTileSizePx, setupPlaceholderPixmaps. keep.
  - unfold configureDiskCache. keep.
  - unfold clearDiskCache. keep.
  - unfold abortLoading. keep.
  - unfold setLoadingPixmap. keep.
  - unfold setEmptyPixmap. keep.
  - unfold setCustomTileProvider, abortLoading. keep.
  - by intros s Hs.
Qed.

Lemma capacity_run tile_size_px epsg calls :
  Forall tame calls -> capacity_kept (run tile_size_px epsg calls).
Proof.
  intros Hcalls. unfold run.
  assert (capacity_kept (construct tile_size_px epsg)) as Hinit.
  { split; [apply QCache_within_setMaxCost | constructor]. }
  revert Hinit. generalize (construct tile_size_px epsg) as s.
  induction Hcalls as [|c calls Hc _ IH]; intros s Hs; cbn; [done|].
  by apply IH, call_keeps_capacity.
Qed.

End Capacity.

(** X14.  The memory cache stays within its capacity.  When the decoder
    and the downloads bring no pixmap of negative cost, then after any
    calls on a manager the entries of its memory cache together cost no
    more than the capacity (or nothing is cached at all, when the capacity
    is negative), and no entry has a negative cost. *)
Theorem memory_cache_stays_within_capacity tile_size_px epsg calls :
  (forall bytes, 0 <= pixmap_cost (fromImageReader bytes)) ->
  Forall tame calls ->
  (QCache.chain (m_memoryCache (run tile_size_px epsg calls)) = []
   \/ QCache.totalCost (m_memoryCache (run tile_size_px epsg calls))
      <= QCache.mx (m_memoryCache (run tile_size_px epsg calls)))
  /\ QCache.totalCost (m_memoryCache (run tile_size_px epsg calls))
     <= Z.max 0 (QCache.mx (m_memoryCache (run tile_size_px epsg calls)))
  /\ Forall (fun n => 0 <= QCache.node_cost n)
       (QCache.chain (m_memoryCache (run tile_size_px epsg calls))).
Proof.
  intros Hdecoder Hcalls.
  destruct (capacity_run Hdecoder tile_size_px epsg calls Hcalls)
    as [Hin Hpos].
  split; [exact Hin|]. split; [|exact Hpos].
  destruct Hin as [Hnil | Hle]; [|lia].
  unfold QCache.totalCost. rewrite Hnil. cbn. lia.
Qed.

Lemma int32_small z : - 2 ^ 31 <= z < 2 ^ 31 -> int32 z = z.
Proof. intros Hz. unfold int32. rewrite Z.mod_small; lia. Qed.

(** X15.  [setMemoryCacheCapacity], for a capacity from 0 to 2047 MiB (the
    range in which the product is an [int]): the capacity of the memory
    cache becomes that many times 1048576; entries are evicted, never
    added, until the cache is within it, and none is evicted when the
    cache already fits; nothing else of the manager changes. *)
Theorem setMemoryCacheCapacity_evicts capacityMiB s :
  0 <= capacityMiB < 2048 ->
  QCache.mx (m_memoryCache (after (setMemoryCacheCapacity capacityMiB s)))
  = capacityMiB * 1048576
  /\ QCache.within_capacity
       (m_memoryCache (after (setMemoryCacheCapacity capacityMiB s)))
  /\ (forall n,
        n ∈ QCache.chain
              (m_memoryCache (after (setMemoryCacheCapacity capacityMiB s))) ->
        n ∈ QCache.chain (m_memoryCache s))
  /\ (QCache.totalCost (m_memoryCache s) <= capacityMiB * 1048576 ->
      QCache.chain
        (m_memoryCache (after (setMemoryCacheCapacity capacityMiB s)))
      = QCache.chain (m_memoryCache s))
  /\ after (setMemoryCacheCapacity capacityMiB s)
     = set_memoryCache
         (m_memoryCache (after (setMemoryCacheCapacity capacityMiB s))) s.
Proof.
  intros Hrange.
  assert (int32 (int32 (capacityMiB * 1024) * 1024) = capacityMiB * 1048576)
    as Hmx.
  { rewrite (int32_small (capacityMiB * 1024)) by lia.
    rewrite int32_small by lia. lia. }
  unfold setMemoryCacheCapacity, after, modify. cbn. rewrite Hmx.
  split; [done|]. split; [apply QCache_within_setMaxCost|].
  split; [|split; [|done]].
  - intros n Hn.
    assert (Forall (fun n => n ∈ QCache.chain (m_memoryCache s))
              (QCache.trim_chain (capacityMiB * 1048576)
                 (QCache.chain (m_memoryCache s)))) as Hsub.
    { apply trim_chain_sub. by apply Forall_forall. }
    rewrite Forall_forall in Hsub. by apply Hsub.
  - intros Hfit. by apply trim_chain_fits.
Qed.

(** *** The persistent cache *)

(** X16.  [configureDiskCache] does nothing and returns [false] when the
    directory cannot be made.  Otherwise it returns [true] and the manager
    has a persistent cache of the given directory and of the given number
    of MiB in bytes; the network layer is not given the cache by this call,
    only by a later [setCachePolicy]: a policy set before the cache was
    configured leaves the network layer with what it had.  When no tile
    provider is bound and the policy is AlwaysCache or PreferCache, a tile
    of the directory that the memory cache does not hold is served by
    [getImage] at once. *)
Theorem configureDiskCache_effects dir capacityMiB held s :
  configureDiskCache dir capacityMiB false held s = (false, s, [])
  /\ result (configureDiskCache dir capacityMiB true held s) = true
  /\ m_diskCache (after (configureDiskCache dir capacityMiB true held s))
     = Some (mkDiskCache dir (capacityMiB * 1048576) held)
  /\ m_networkManager (after (configureDiskCache dir capacityMiB true held s))
     = m_networkManager s
  /\ NetworkManager.m_accessManager_cache
       (m_networkManager
          (after (configureDiskCache dir capacityMiB true held
                    (after (setCachePolicy PreferCache s)))))
     = diskCachePtr s
  /\ NetworkManager.m_accessManager_cache
       (m_networkManager
          (after (setCachePolicy PreferCache
                    (after (configureDiskCache dir capacityMiB true held s)))))
     = Some NetworkManager.TheDiskCache
  /\ (forall url bytes,
        QCache.peek (hashTileUrl s url) (m_memoryCache s) = None ->
        m_tileProvider s = None ->
        m_cachePolicy s = AlwaysCache \/ m_cachePolicy s = PreferCache ->
        held !! url = Some bytes ->
        result (getImage url
                  (after (configureDiskCache dir capacityMiB true held s)))
        = fromImageReader bytes).
Proof.
  repeat apply conj; try done.
  - unfold configureDiskCache, after, modify. unfold_im. cbn.
    do 2 f_equal. lia.
  - intros url bytes Hmiss Hp Hpol Hheld.
    rewrite getImage_miss by exact Hmiss.
    by rewrite (getImageInternal_persistent _ _ bytes).
Qed.

(** X17.  [clearDiskCache] empties the persistent cache and nothing else:
    it is silent, keeps the directory and the capacity, does nothing when
    no persistent cache is configured, and leaves the memory cache and the
    network layer alone.  Afterwards the persistent cache holds no URL, so
    an offline miss gives the empty tile, while the tiles in the memory
    cache are served as before. *)
Theorem clearDiskCache_effects s :
  events (clearDiskCache s) = []
  /\ (forall url, persistent (after (clearDiskCache s)) url = None)
  /\ (m_diskCache s = None -> after (clearDiskCache s) = s)
  /\ (forall dc,
        m_diskCache s = Some dc ->
        after (clearDiskCache s)
        = set_diskCache
            (Some (mkDiskCache (cacheDirectory dc) (maximumCacheSize dc) ∅)) s)
  /\ (forall url,
        QCache.peek (hashTileUrl s url) (m_memoryCache s) = None ->
        m_tileProvider s = None ->
        m_cachePolicy s = AlwaysCache ->
        result (getImage url (after (clearDiskCache s))) = m_pixmapEmpty s)
  /\ (forall url pixmap,
        QCache.peek (hashTileUrl s url) (m_memoryCache s) = Some pixmap ->
        result (getImage url (after (clearDiskCache s))) = pixmap).
Proof.
  assert (forall url, persistent (after (clearDiskCache s)) url = None)
    as Hgone.
  { intros url. unfold clearDiskCache, after, modify, persistent. cbn.
    destruct (m_diskCache s) as [dc|] eqn:Hdc; cbn; [|by rewrite Hdc].
    unfold data. cbn. apply lookup_empty. }
  assert (m_memoryCache (after (clearDiskCache s)) = m_memoryCache s
          /\ m_tile_size_px (after (clearDiskCache s)) = m_tile_size_px s
          /\ projection_epsg (after (clearDiskCache s)) = projection_epsg s
          /\ m_tileProvider (after (clearDiskCache s)) = m_tileProvider s
          /\ m_cachePolicy (after (clearDiskCache s)) = m_cachePolicy s
          /\ m_pixmapEmpty (after (clearDiskCache s)) = m_pixmapEmpty s)
    as (Hc & Hs & He & Hp' & Hpol' & Hempty).
  { unfold clearDiskCache, after, modify. cbn. by destruct (m_diskCache s). }
  repeat apply conj; try done.
  - intros Hnone. unfold clearDiskCache, after, modify. cbn. by rewrite Hnone.
  - intros dc Hdc. unfold clearDiskCache, after, modify. cbn. by rewrite Hdc.
  - intros url Hmiss Hp Hpol.
    rewrite getImage_miss by (by rewrite (hashTileUrl_frame s), Hc).
    rewrite getImageInternal_offline; [by project | congruence..| apply Hgone].
  - intros url pixmap Hhit.
    destruct (getImage_memory_hit_run url (after (clearDiskCache s)) pixmap)
      as (Hres & _); [|done].
    by rewrite (hashTileUrl_frame s), Hc.
Qed.

(** *** The key of a tile *)

Lemma string_app_cons a (s t : string) :
  String a s +:+ t = String a (s +:+ t).
Proof. done. Qed.

Lemma string_app_length (s t : string) :
  String.length (s +:+ t) = (String.length s + String.length t)%nat.
Proof.
  induction s as [|a s IH]; [done|].
  rewrite string_app_cons. cbn. by rewrite IH.
Qed.

Lemma string_app_inv_tail (s1 s2 t : string) :
  s1 +:+ t = s2 +:+ t -> s1 = s2.
Proof.
  revert s2. induction s1 as [|a s1 IH]; intros [|b s2] Heq.
  - done.
  - apply (f_equal String.length) in Heq.
    rewrite !string_app_length in Heq. cbn in Heq. lia.
  - apply (f_equal String.length) in Heq.
    rewrite !string_app_length in Heq. cbn in Heq. lia.
  - rewrite !string_app_cons in Heq. injection Heq as -> Heq.
    f_equal. by apply IH.
Qed.

(** X18.  What [hashTileUrl] digests is the URL followed by the EPSG code
    and the tile size in decimal, without separators.  For one URL this
    text tells two tile sizes apart under one projection, and two
    projections apart under one tile size; but it does not tell the pair
    apart in general: projection 3857 with tiles of 256 and projection 38
    with tiles of 57256 give the same text, hence the same key. *)
Theorem tile_key_text_separates url s1 s2 :
  hashTileUrl s1 url = md5_hex (tile_key_text s1 url)
  /\ (tile_key_text s1 url = tile_key_text s2 url ->
      projection_epsg s1 = projection_epsg s2 ->
      m_tile_size_px s1 = m_tile_size_px s2)
  /\ (tile_key_text s1 url = tile_key_text s2 url ->
      m_tile_size_px s1 = m_tile_size_px s2 ->
      projection_epsg s1 = projection_epsg s2)
  /\ (projection_epsg s1 = 3857 -> m_tile_size_px s1 = 256 ->
      projection_epsg s2 = 38 -> m_tile_size_px s2 = 57256 ->
      hashTileUrl s1 url = hashTileUrl s2 url).
Proof.
  unfold hashTileUrl, tile_key_text. repeat apply conj; [done|..].
  - intros Heq He. rewrite He in Heq.
    apply (inj (String.app url)), (inj (String.app _)) in Heq.
    by apply (inj pretty) in Heq.
  - intros Heq Hs. rewrite Hs in Heq.
    apply (inj (String.app url)), string_app_inv_tail in Heq.
    by apply (inj pretty) in Heq.
  - by intros -> -> -> ->.
Qed.

End TileManager.

(** ** Properties of the Google tile source *)

Section GoogleLayers.

Import MapAdapterGoogle.

(** X19.  [layerTypeToString] gives every layer type one character, and
    different characters to different layer types: the URL templates of two
    adapters are the same only when their layer types are. *)
Theorem layer_urls_are_distinct :
  (forall layer_type, String.length (layerTypeToString layer_type) = 1%nat)
  /\ (forall layer1 layer2,
        base_url layer1 = base_url layer2 -> layer1 = layer2)
  /\ (forall layer_type,
        String.prefix kGoogleMapUrlFormat (base_url layer_type) = true).
Proof.
  split; [by intros []|]. split.
  - intros layer1 layer2 Heq. unfold base_url in Heq.
    apply (inj (String.app kGoogleMapUrlFormat)) in Heq.
    by destruct layer1, layer2.
  - by intros [].
Qed.

End GoogleLayers.

(** ** The properties at work *)

Section AtWork.

Import ImageManager.

Local Existing Instance demo_platform.

Local Ltac compute_it := vm_compute; reflexivity.

(** The miss path on the managers above, one tile for each way through. *)
Lemma getImage_miss_path_witness :
  result (getImage "tile/good" provider_manager) = good_pixmap
  /\ events (getImage "tile/good" provider_manager)
     = [ProviderGetTileData "tile/good"]
  /\ result (getImage "tile/none" provider_manager) = empty_tile
  /\ events (getImage "tile/none" provider_manager)
     = [ProviderGetTileData "tile/none"]
  /\ result (getImage "tile/on-disk" offline_manager) = disk_pixmap
  /\ result (getImage "tile/none" offline_manager) = empty_tile
  /\ events (getImage "tile/none" offline_manager) = [DiskCacheData "tile/none"]
  /\ result (getImage "tile/none" online_manager) = loading_tile
  /\ events (getImage "tile/none" online_manager)
     = [DiskCacheData "tile/none"; Emit (downloadImage "tile/none" false)]
  /\ events (getImage "tile/on-disk" network_manager)
     = [Emit (downloadImage "tile/on-disk" false)].
Proof.
  destruct (@getImage_miss_path demo_platform "tile/good" provider_manager
              ltac:(compute_it)) as (Ha & _).
  destruct (Ha demo_provider "PNG-good" ltac:(compute_it) ltac:(compute_it))
    as (Hgood & _).
  destruct (@getImage_miss_path demo_platform "tile/none" provider_manager
              ltac:(compute_it)) as (_ & Hnone & _).
  specialize (Hnone demo_provider "" ltac:(compute_it) ltac:(compute_it)).
  destruct (@getImage_miss_path demo_platform "tile/on-disk" offline_manager
              ltac:(compute_it)) as (_ & _ & Hb & _).
  destruct (Hb "PNG-disk" ltac:(compute_it) ltac:(left; compute_it)
              ltac:(compute_it)) as (Hdisk & _).
  destruct (@getImage_miss_path demo_platform "tile/none" offline_manager
              ltac:(compute_it)) as (_ & _ & _ & Hc & _).
  specialize (Hc ltac:(compute_it) ltac:(compute_it) ltac:(compute_it)).
  destruct (@getImage_miss_path demo_platform "tile/none" online_manager
              ltac:(compute_it)) as (_ & _ & _ & _ & Hd).
  specialize (Hd ltac:(compute_it) ltac:(right; split; compute_it)).
  destruct (@getImage_miss_path demo_platform "tile/on-disk" network_manager
              ltac:(compute_it)) as (_ & _ & _ & _ & Hd').
  specialize (Hd' ltac:(compute_it) ltac:(left; compute_it)).
  rewrite Hgood, Hnone, Hdisk, Hc, Hd, Hd'.
  repeat split.
Defined.

(** The tile the provider served is then answered from the memory cache. *)
Lemma getImage_memory_hit_witness :
  QCache.peek (hashTileUrl warm_manager "tile/good")
    (m_memoryCache warm_manager) = Some good_pixmap
  /\ result (getImage "tile/good" warm_manager) = good_pixmap
  /\ events (getImage "tile/good" warm_manager) = []
  /\ m_networkManager (after (getImage "tile/good" warm_manager))
     = m_networkManager warm_manager.
Proof.
  split; [compute_it|].
  apply (@getImage_memory_hit demo_platform "tile/good" warm_manager good_pixmap).
  compute_it.
Defined.

(** Offline, an unknown tile is empty and a tile on disk needs no download. *)
Lemma getImage_AlwaysCache_no_download_witness :
  result (getImage "tile/none" offline_manager) = m_pixmapEmpty offline_manager
  /\ m_networkManager (after (getImage "tile/none" offline_manager))
     = m_networkManager offline_manager
  /\ Emit (downloadImage "tile/on-disk" false)
     ∉ events (getImage "tile/on-disk" offline_manager).
Proof.
  destruct (@getImage_AlwaysCache_no_download demo_platform "tile/none" offline_manager
              ltac:(compute_it) ltac:(compute_it) ltac:(compute_it))
    as (_ & Hnm & Hres).
  destruct (Hres ltac:(compute_it)) as (Hempty & _).
  destruct (@getImage_AlwaysCache_no_download demo_platform "tile/on-disk" offline_manager
              ltac:(compute_it) ltac:(compute_it) ltac:(compute_it))
    as (Hquiet & _).
  split; [exact Hempty | split; [exact Hnm | apply Hquiet]].
Defined.

(** Asking twice for ["tile/a"] starts one transport operation. *)
Lemma one_download_in_flight_per_url_witness :
  NetworkManager.isDownloading "tile/a"
    (NetworkManager.run busy_coordinator) = true
  /\ NetworkManager.downloadImage "tile/a" false
       (NetworkManager.run busy_coordinator)
     = NetworkManager.run busy_coordinator
  /\ NetworkManager.m_accessManager_issued
       (NetworkManager.downloadImage "tile/a" true
          (NetworkManager.run busy_coordinator))
     = [("tile/b", false); ("tile/a", false)]
  /\ NoDup (NetworkManager.outstanding
              (m_networkManager
                 (demo_run [CallSetCachePolicy PreferCache;
                            CallGetImage "tile/a"; CallGetImage "tile/a"]))).
Proof.
  destruct (@one_download_in_flight_per_url demo_platform)
    as (_ & Hstay & Hquiet & _ & Hown).
  split; [compute_it|]. split; [|split].
  - apply Hstay. compute_it.
  - destruct (Hquiet (NetworkManager.run busy_coordinator) "tile/a" true
                ltac:(compute_it)) as (-> & _).
    compute_it.
  - apply Hown.
Defined.

(** A prefetched tile completes silently, a requested one with a signal. *)
Lemma handleImageDownloaded_prefetch_witness :
  QCache.peek (hashTileUrl online_manager "tile/far")
    (m_memoryCache online_manager) = None
  /\ "tile/far" ∈ m_prefetchUrls (after (prefetchImage "tile/far" online_manager))
  /\ events (handleImageDownloaded "tile/far" good_pixmap
               (after (prefetchImage "tile/far" online_manager))) = []
  /\ events (handleImageDownloaded "tile/far" good_pixmap online_manager)
     = [Emit (imageUpdated "tile/far")]
  /\ QCache.peek (hashTileUrl online_manager "tile/far")
       (m_memoryCache
          (after (handleImageDownloaded "tile/far" good_pixmap online_manager)))
     = Some good_pixmap.
Proof.
  destruct (@handleImageDownloaded_prefetch demo_platform "tile/far" good_pixmap
              online_manager) as (_ & Hplain & _ & Hfound & Hsilent).
  split; [compute_it|].
  destruct (Hsilent ltac:(compute_it) ltac:(compute_it)
              ltac:(right; compute_it)) as (Hin & Hquiet).
  split; [exact Hin|]. split; [exact Hquiet|]. split.
  - apply Hplain.
    apply (bool_decide_eq_false_1
             ("tile/far" ∈ m_prefetchUrls online_manager)).
    compute_it.
  - apply Hfound; [compute_it | vm_compute; discriminate].
Defined.

(** Going online attaches the configured persistent cache. *)
Lemma setCachePolicy_effects_witness :
  PreferCache <> AlwaysCache
  /\ m_cachePolicy (after (setCachePolicy PreferCache offline_manager))
     = PreferCache
  /\ NetworkManager.m_accessManager_cache
       (m_networkManager (after (setCachePolicy PreferCache offline_manager)))
     = Some NetworkManager.TheDiskCache
  /\ m_prefetchUrls (after (setCachePolicy PreferCache offline_manager))
     = m_prefetchUrls offline_manager.
Proof.
  destruct (setCachePolicy_effects offline_manager)
    as (Hstored & _ & _ & Hattached & Hframe).
  split; [discriminate|]. split; [apply Hstored|].
  split; [rewrite Hattached; compute_it|].
  by destruct (Hframe PreferCache ltac:(discriminate)) as (_ & Hsame).
Defined.

(** Warming the persistent cache under each policy. *)
Lemma cacheImageToDisk_cases_witness :
  result (cacheImageToDisk "tile/on-disk" online_manager) = true
  /\ events (cacheImageToDisk "tile/on-disk" online_manager)
     = [DiskCacheData "tile/on-disk"; Emit imageCached]
  /\ cacheImageToDisk "tile/none" offline_manager
     = (true, offline_manager, [DiskCacheData "tile/none"])
  /\ result (cacheImageToDisk "tile/none" online_manager) = false
  /\ events (cacheImageToDisk "tile/none" online_manager)
     = [DiskCacheData "tile/none"; Emit (downloadImage "tile/none" true)]
  /\ events (cacheImageToDisk "tile/on-disk" network_manager)
     = [Emit (downloadImage "tile/on-disk" true)].
Proof.
  destruct (cacheImageToDisk_cases "tile/on-disk" online_manager)
    as (Hheld & _).
  specialize (Hheld ltac:(right; compute_it) ltac:(compute_it)).
  destruct (cacheImageToDisk_cases "tile/none" offline_manager)
    as (_ & Hoffline & _).
  specialize (Hoffline ltac:(compute_it) ltac:(compute_it)).
  destruct (cacheImageToDisk_cases "tile/none" online_manager)
    as (_ & _ & Honline & _).
  specialize (Honline ltac:(compute_it) ltac:(compute_it)).
  destruct (cacheImageToDisk_cases "tile/on-disk" network_manager)
    as (_ & _ & _ & Hnetwork).
  specialize (Hnetwork ltac:(compute_it)).
  rewrite Hheld, Hoffline, Honline, Hnetwork. repeat split.
Defined.

(** The broken tile of the provider comes back as the null pixmap. *)
Lemma decode_failure_returns_null_pixmap_witness :
  isNull (fromImageReader "garbage") = true
  /\ result (getImageFromDevice "tile/broken" "garbage" provider_manager)
     = null_pixmap
  /\ isNull (result (getImage "tile/broken" provider_manager)) = true
  /\ m_memoryCache (after (getImage "tile/broken" provider_manager))
     = m_memoryCache provider_manager.
Proof.
  destruct (@decode_failure_returns_null_pixmap demo_platform "tile/broken" "garbage"
              provider_manager ltac:(compute_it)) as ((Hres & _) & Hpath).
  split; [compute_it|]. split; [exact Hres|].
  apply Hpath; [compute_it|].
  left. exists demo_provider. split; compute_it.
Defined.

(** C8 as stated does not hold: the bytes ["garbage"] of the provider do
    not decode, and what is returned is not the empty-tile placeholder. *)
Lemma decode_failure_counterexample :
  isNull (fromImageReader "garbage") = true
  /\ result (getImageFromDevice "tile/broken" "garbage" provider_manager)
     <> m_pixmapEmpty provider_manager
  /\ result (getImage "tile/broken" provider_manager)
     <> m_pixmapEmpty provider_manager.
Proof.
  split; [compute_it|]. split; intros Heq; vm_compute in Heq; discriminate.
Qed.

(** What the warm manager finds is a usable pixmap. *)
Lemma memory_cache_never_holds_null_witness :
  result (findTileInMemoryCache "tile/good" (run 256 3857 warm_calls))
  = Some good_pixmap
  /\ isNull good_pixmap = false
  /\ insertTileToMemoryCache "tile/broken" null_pixmap warm_manager
     = (tt, warm_manager, []).
Proof.
  destruct (@memory_cache_never_holds_null demo_platform)
    as (Hnull & _ & Hfound).
  assert (result (findTileInMemoryCache "tile/good" (run 256 3857 warm_calls))
          = Some good_pixmap) as Hhit by compute_it.
  split; [exact Hhit|]. split.
  - exact (Hfound 256 3857 warm_calls "tile/good" good_pixmap Hhit).
  - exact (Hnull "tile/broken" warm_manager null_pixmap eq_refl).
Defined.

(** Prefetching the older of the two tiles shows nothing and moves it to
    the front of the cache. *)
Lemma prefetchImage_cached_refreshes_recency_only_witness :
  QCache.peek (hashTileUrl two_tile_manager "tile/A")
    (m_memoryCache two_tile_manager) = Some (wide_tile "A")
  /\ events (prefetchImage "tile/A" two_tile_manager) = []
  /\ m_prefetchUrls (after (prefetchImage "tile/A" two_tile_manager))
     = m_prefetchUrls two_tile_manager
  /\ m_networkManager (after (prefetchImage "tile/A" two_tile_manager))
     = m_networkManager two_tile_manager
  /\ QCache.chain (m_memoryCache (after (prefetchImage "tile/A" two_tile_manager)))
     ≡ₚ QCache.chain (m_memoryCache two_tile_manager).
Proof.
  split; [compute_it|].
  destruct (@prefetchImage_cached_refreshes_recency_only demo_platform
              "tile/A" two_tile_manager (wide_tile "A") ltac:(compute_it))
    as (Hquiet & Hset & Hnm & _ & _ & _ & _ & Hperm & _).
  by repeat split.
Defined.

(** C10 as stated does not hold.  The manager holds the tiles A and B, B
    the more recent, in a cache with room for two.  Prefetching A, which is
    cached, changes the memory cache: A becomes the more recent.  This
    shows later: when the tile C arrives, B is evicted instead of A, and
    [getImage] of B asks for a download that it would not have asked for
    without the prefetch. *)
Lemma prefetchImage_cached_counterexample :
  QCache.peek (hashTileUrl two_tile_manager "tile/A")
    (m_memoryCache two_tile_manager) = Some (wide_tile "A")
  /\ m_memoryCache (after (prefetchImage "tile/A" two_tile_manager))
     <> m_memoryCache two_tile_manager
  /\ map QCache.node_obj (QCache.chain (m_memoryCache two_tile_manager))
     = [wide_tile "B"; wide_tile "A"]
  /\ map QCache.node_obj
       (QCache.chain
          (m_memoryCache (after (prefetchImage "tile/A" two_tile_manager))))
     = [wide_tile "A"; wide_tile "B"]
  /\ events (getImage "tile/B"
               (after (handleImageDownloaded "tile/C" (wide_tile "C")
                         two_tile_manager))) = []
  /\ events (getImage "tile/B"
               (after (handleImageDownloaded "tile/C" (wide_tile "C")
                         (after (prefetchImage "tile/A" two_tile_manager)))))
     = [Emit (downloadImage "tile/B" false)].
Proof.
  split; [compute_it|]. split.
  - intros Heq. apply (f_equal QCache.chain) in Heq.
    apply (f_equal (map QCache.node_obj)) in Heq.
    vm_compute in Heq. discriminate.
  - repeat split; compute_it.
Qed.

(** A new tile size, positive and zero. *)
Lemma setTileSizePx_regenerates_placeholders_witness :
  m_pixmapEmpty (after (setTileSizePx 512 warm_manager))
  = mkPixmap 512 512 32 Transparent
  /\ m_pixmapLoading (after (setTileSizePx 0 warm_manager)) = null_pixmap.
Proof.
  destruct (setTileSizePx_regenerates_placeholders 512 warm_manager)
    as (Hpos & _).
  destruct (Hpos ltac:(lia)) as (Hempty & _).
  destruct (setTileSizePx_regenerates_placeholders 0 warm_manager)
    as (_ & Hnull & _).
  destruct (Hnull ltac:(lia)) as (_ & Hloading).
  split; [exact Hempty | exact Hloading].
Defined.

(** The host's empty tile is what an offline miss returns. *)
Lemma installed_placeholders_are_returned_witness :
  result (getImage "tile/none" (after (setEmptyPixmap good_pixmap offline_manager)))
  = good_pixmap
  /\ result (getImage "tile/none"
               (after (setLoadingPixmap good_pixmap online_manager)))
     = good_pixmap.
Proof.
  destruct (@installed_placeholders_are_returned demo_platform "tile/none"
              offline_manager good_pixmap ltac:(compute_it)) as (Hempty & _).
  destruct (@installed_placeholders_are_returned demo_platform "tile/none"
              online_manager good_pixmap ltac:(compute_it)) as (_ & _ & Hload).
  split.
  - apply Hempty; compute_it.
  - apply Hload; [compute_it | right; split; compute_it].
Defined.

(** The tile of the old provider is served after the provider is gone. *)
Lemma setCustomTileProvider_keeps_cached_tiles_witness :
  result (getImage "tile/good" (after (setCustomTileProvider None warm_manager)))
  = good_pixmap
  /\ events (getImage "tile/good"
               (after (setCustomTileProvider None warm_manager))) = [].
Proof.
  destruct (@setCustomTileProvider_keeps_cached_tiles demo_platform None
              warm_manager) as (_ & _ & _ & _ & Hserved).
  apply Hserved. compute_it.
Defined.

(** With the provider bound, a miss shows one call on the provider. *)
Lemma bound_provider_shadows_disk_and_network_witness :
  m_tileProvider provider_network_manager = Some demo_provider
  /\ events (prefetchImage "tile/none" provider_network_manager)
     = events (getImage "tile/none" provider_network_manager)
  /\ m_networkManager (after (getImage "tile/none" provider_network_manager))
     = m_networkManager provider_network_manager.
Proof.
  split; [compute_it|].
  destruct (@bound_provider_shadows_disk_and_network demo_platform "tile/none"
              provider_network_manager demo_provider ltac:(compute_it))
    as (_ & Hsame & Hnm & _).
  split; [exact Hsame | exact Hnm].
Defined.

(** The bytes of the broken tile come from the provider alone. *)
Lemma rawImageFromDiskCache_reads_one_source_witness :
  result (rawImageFromDiskCache "tile/broken" provider_manager) = "garbage"
  /\ events (rawImageFromDiskCache "tile/broken" provider_manager)
     = [ProviderGetTileData "tile/broken"]
  /\ result (rawImageFromDiskCache "tile/on-disk" offline_manager) = "PNG-disk".
Proof.
  destruct (rawImageFromDiskCache_reads_one_source "tile/broken"
              provider_manager) as (_ & Hprov & _).
  destruct (Hprov demo_provider ltac:(compute_it)) as (Hres & Hev).
  destruct (rawImageFromDiskCache_reads_one_source "tile/on-disk"
              offline_manager) as (_ & _ & Hdisk).
  destruct (Hdisk ltac:(compute_it)) as (Hres' & _).
  rewrite Hres, Hev, Hres'. repeat split; compute_it.
Defined.

(** With the provider bound and the network only, a download is asked. *)
Lemma cacheImageToDisk_frame_witness :
  result (cacheImageToDisk "tile/good" provider_network_manager) = false
  /\ Emit (downloadImage "tile/good" true)
     ∈ events (cacheImageToDisk "tile/good" provider_network_manager).
Proof.
  destruct (cacheImageToDisk_frame "tile/good" provider_network_manager)
    as (_ & _ & _ & _ & Hasks).
  apply (Hasks demo_provider); [compute_it | left; compute_it].
Defined.

(** Requested and prefetched, ["tile/far"] completes in silence. *)
Lemma prefetch_silences_pending_request_witness :
  goes_to_download "tile/far" online_manager
  /\ events (handleImageDownloaded "tile/far" good_pixmap
               (after (prefetchImage "tile/far"
                         (after (getImage "tile/far" online_manager))))) = [].
Proof.
  assert (goes_to_download "tile/far" online_manager) as Hgo.
  { split; [compute_it|]. split; [compute_it|]. right. split; compute_it. }
  split; [exact Hgo|].
  by destruct (@prefetch_silences_pending_request demo_platform "tile/far"
                 good_pixmap online_manager Hgo) as (Hsilent & _).
Defined.

(** Prefetched offline, requested online: the completion is silent. *)
Lemma offline_prefetch_outlives_policy_change_witness :
  events (handleImageDownloaded "tile/far" good_pixmap
            (after (getImage "tile/far"
                      (after (setCachePolicy PreferCache
                                (after (prefetchImage "tile/far"
                                          offline_manager))))))) = [].
Proof.
  by destruct (@offline_prefetch_outlives_policy_change demo_platform
                 "tile/far" good_pixmap offline_manager PreferCache
                 ltac:(compute_it) ltac:(compute_it) ltac:(compute_it)
                 ltac:(compute_it) ltac:(discriminate))
    as (_ & _ & _ & Hsilent).
Defined.

(** A prefetch the provider serves is not recorded; one it cannot is. *)
Lemma prefetch_record_after_miss_witness :
  ("tile/good"
   ∉ m_prefetchUrls (after (prefetchImage "tile/good" provider_manager)))
  /\ "tile/none" ∈ m_prefetchUrls
                     (after (prefetchImage "tile/none" provider_manager))
  /\ ("tile/on-disk"
      ∉ m_prefetchUrls (after (prefetchImage "tile/on-disk" offline_manager))).
Proof.
  destruct (@prefetch_record_after_miss demo_platform "tile/good"
              provider_manager ltac:(compute_it)) as (Hgood & _).
  destruct (@prefetch_record_after_miss demo_platform "tile/none"
              provider_manager ltac:(compute_it)) as (_ & _ & Hnone & _).
  destruct (@prefetch_record_after_miss demo_platform "tile/on-disk"
              offline_manager ltac:(compute_it)) as (_ & Hdisk & _).
  split; [|split].
  - apply (Hgood demo_provider "PNG-good"); compute_it.
  - apply (Hnone demo_provider ""); compute_it.
  - apply (Hdisk "PNG-disk"); [compute_it | left; compute_it | compute_it].
Defined.

(** The downloaded tile survives a policy change, a clearing of the disk
    and a provider swap. *)
Lemma downloaded_tile_is_served_witness :
  result (getImage "tile/far"
            (foldl call
               (after (handleImageDownloaded "tile/far" good_pixmap
                         online_manager))
               quiet_calls))
  = good_pixmap.
Proof.
  destruct (@downloaded_tile_is_served demo_platform "tile/far" good_pixmap
              online_manager quiet_calls) as (Hres & _).
  - compute_it.
  - vm_compute. discriminate.
  - repeat constructor.
  - exact Hres.
Defined.

(** Without room in the cache the downloaded tile is not kept. *)
Lemma oversize_tile_is_not_cached_witness :
  QCache.mx (m_memoryCache cramped_manager) < pixmap_cost good_pixmap
  /\ QCache.peek (hashTileUrl cramped_manager "tile/far")
       (m_memoryCache
          (after (handleImageDownloaded "tile/far" good_pixmap cramped_manager)))
     = None.
Proof.
  assert (QCache.mx (m_memoryCache cramped_manager) < pixmap_cost good_pixmap)
    as Hbig by (vm_compute; reflexivity).
  split; [exact Hbig|].
  by destruct (@oversize_tile_is_not_cached demo_platform "tile/far"
                 good_pixmap cramped_manager ltac:(compute_it) Hbig)
    as (Hgone & _).
Defined.

Lemma demo_decode_cost bytes : 0 <= pixmap_cost (demo_decode bytes).
Proof.
  unfold demo_decode. by destruct (String.prefix "P" bytes).
Qed.

(** Filled and then shrunk to nothing, the cache is within its capacity. *)
Lemma memory_cache_stays_within_capacity_witness :
  Forall tame filling_calls
  /\ QCache.totalCost (m_memoryCache (run 256 3857 filling_calls))
     <= Z.max 0 (QCache.mx (m_memoryCache (run 256 3857 filling_calls))).
Proof.
  assert (Forall tame filling_calls) as Htame.
  { repeat constructor. vm_compute. discriminate. }
  split; [exact Htame|].
  by destruct (@memory_cache_stays_within_capacity demo_platform 256 3857
                 filling_calls demo_decode_cost Htame) as (_ & Hle & _).
Defined.

(** One MiB is room for the tile the warm manager holds. *)
Lemma setMemoryCacheCapacity_evicts_witness :
  QCache.mx (m_memoryCache (after (setMemoryCacheCapacity 1 warm_manager)))
  = 1048576
  /\ QCache.chain (m_memoryCache (after (setMemoryCacheCapacity 1 warm_manager)))
     = QCache.chain (m_memoryCache warm_manager).
Proof.
  destruct (setMemoryCacheCapacity_evicts 1 warm_manager ltac:(lia))
    as (Hmx & _ & _ & Hfits & _).
  split; [exact Hmx|]. apply Hfits. vm_compute. discriminate.
Defined.

(** Configured on a fresh manager, the disk serves its tile at once. *)
Lemma configureDiskCache_effects_witness :
  result (getImage "tile/on-disk"
            (after (configureDiskCache "/var/cache/tiles" 50 true
                      (stored demo_disk) fresh_manager)))
  = disk_pixmap.
Proof.
  destruct (@configureDiskCache_effects demo_platform "/var/cache/tiles" 50
              (stored demo_disk) fresh_manager)
    as (_ & _ & _ & _ & _ & _ & Hserved).
  rewrite (Hserved "tile/on-disk" "PNG-disk");
    [compute_it | compute_it | compute_it | left; compute_it | compute_it].
Defined.

(** Cleared, the disk no longer serves its tile. *)
Lemma clearDiskCache_effects_witness :
  persistent offline_manager "tile/on-disk" = Some "PNG-disk"
  /\ result (getImage "tile/on-disk" (after (clearDiskCache offline_manager)))
     = m_pixmapEmpty offline_manager.
Proof.
  split; [compute_it|].
  destruct (@clearDiskCache_effects demo_platform offline_manager)
    as (_ & _ & _ & _ & Hempty & _).
  apply Hempty; compute_it.
Defined.

(** Two managers, one key. *)
Lemma tile_key_text_separates_witness :
  hashTileUrl (construct 256 3857) "tile/a"
  = hashTileUrl (construct 57256 38) "tile/a".
Proof.
  destruct (@tile_key_text_separates demo_platform "tile/a"
              (construct 256 3857) (construct 57256 38))
    as (_ & _ & _ & Hsame).
  apply Hsame; compute_it.
Defined.

(** Maps and hybrid have different URLs. *)
Lemma layer_urls_are_distinct_witness :
  MapAdapterGoogle.base_url MapAdapterGoogle.MAPS
  <> MapAdapterGoogle.base_url MapAdapterGoogle.HYBRID.
Proof.
  destruct layer_urls_are_distinct as (_ & Hinj & _).
  intros Heq. by specialize (Hinj _ _ Heq).
Defined.

End AtWork.
